(** * ask-my-github: the conversation state of the chat front end

    A shallow embedding of [frontend/src/App.tsx] (the [App] component: the
    transcript [messages], the [isProcessing] flag and the two asynchronous
    handlers), of [frontend/src/components/ChatInput.tsx] (the text fields
    and the validation done before a handler is called), of
    [frontend/src/services/api.ts] and of [frontend/src/types/index.ts],
    and of what [frontend/src/components/ChatMessage.tsx] and the chat area
    of [App] compute for the screen.  The handlers are embedded along the
    TypeScript types; module [Runtime] gives the continuation of a query
    on the untyped values a response can hold.

    An [async] handler runs synchronously up to its [await] and is resumed
    when the awaited promise settles.  Each handler is therefore given as
    two computations, the call and the continuation after [await]; the
    operations suspended in between are kept in the [pending] list of the
    world, and an event of the environment settles one of them. *)

From Stdlib Require Import String Ascii Bool Arith ZArith NArith Lia List.
From Stdlib Require Import DecimalString DecimalZ DecimalPos FinFun Sorted.
Import ListNotations.

Set Implicit Arguments.

(* ------------------------------------------------------------------ *)
(** ** JavaScript strings *)

(** A JavaScript string is a sequence of UTF-16 code units. *)
Definition JsString := list N.

(** A string literal of the source (all of them are ASCII). *)
Definition lit (s : string) : JsString :=
  map N_of_ascii (list_ascii_of_string s).

(** WhiteSpace and LineTerminator code points of ECMAScript, the ones
    [String.prototype.trim] strips. *)
Definition isWhiteSpace (c : N) : bool :=
  ((c =? 0x0009) || (c =? 0x000B) || (c =? 0x000C) || (c =? 0x0020) ||
   (c =? 0x00A0) || (c =? 0x1680) || ((0x2000 <=? c) && (c <=? 0x200A)) ||
   (c =? 0x202F) || (c =? 0x205F) || (c =? 0x3000) || (c =? 0xFEFF))%N.

Definition isLineTerminator (c : N) : bool :=
  ((c =? 0x000A) || (c =? 0x000D) || (c =? 0x2028) || (c =? 0x2029))%N.

Fixpoint trimStart (s : JsString) : JsString :=
  match s with
  | [] => []
  | c :: s' => if isWhiteSpace c || isLineTerminator c then trimStart s' else s
  end.

Definition trimEnd (s : JsString) : JsString := rev (trimStart (rev s)).

Definition trim (s : JsString) : JsString := trimEnd (trimStart s).

(** ToBoolean on a string: only the empty string is falsy. *)
Definition truthy (s : JsString) : bool :=
  match s with [] => false | _ :: _ => true end.

(** [Number.prototype.toString] on an integral number. *)
Definition toString (n : Z) : JsString :=
  lit (NilZero.string_of_int (Z.to_int n)).

(* ------------------------------------------------------------------ *)
(** ** types/index.ts *)

Module Chunk.
Record t := mk { text : JsString; file_path : JsString }.
End Chunk.

Module QueryResponse.
Record t := mk { answer : JsString; chunks : list Chunk.t }.
End QueryResponse.

Inductive Sender := user | bot.

Module Message.
Record t := mk {
  id : JsString;
  content : JsString;
  sender : Sender;
  timestamp : Z;                     (* a Date: milliseconds since the epoch *)
  chunks : option (list Chunk.t)     (* chunks?: absent is None *)
}.
End Message.

(** [Omit<Message, 'id' | 'timestamp'>], the argument of [addMessage]. *)
Module Draft.
Record t := mk {
  content : JsString;
  sender : Sender;
  chunks : option (list Chunk.t)
}.
End Draft.

Module IndexRequest.
Record t := mk { repo_url : JsString; branch : option JsString }.
End IndexRequest.

Module QueryRequest.
Record t := mk {
  question : JsString;
  repo_url : JsString;
  top_k : option Z
}.
End QueryRequest.

(** The response of [/api/index] and [/api/health]: [{ status: string }]. *)
Module Status.
Record t := mk { status : JsString }.
End Status.

(* ------------------------------------------------------------------ *)
(** ** The environment: HTTP, the console, the clock *)

(** What a rejected promise carries.  The handlers only hand it to
    [console.error]. *)
Record Thrown := mkThrown {
  err_message : JsString;
  err_status : option Z       (* the HTTP status, when there was a response *)
}.

(** How a promise settles. *)
Inductive Outcome (A : Type) :=
| Resolved (a : A)
| Rejected (e : Thrown).
Arguments Resolved {A} a.
Arguments Rejected {A} e.

(** The part of an axios response the code reads. *)
Record AxiosResponse (A : Type) := mkResponse { data : A }.

Inductive Body :=
| QueryBody (b : QueryRequest.t)
| IndexBody (b : IndexRequest.t).

(** The effects of the program, in the order it performs them. *)
Inductive Effect :=
| SetMessages (next : list Message.t)   (* the state the updater produced *)
| SetIsProcessing (b : bool)
| AxiosPost (url : JsString) (body : Body)
| ConsoleError (label : JsString) (e : Thrown).

(** An [async] handler suspended at its [await], with the variables its
    continuation still reads. *)
Inductive Pending :=
| AwaitQuery
| AwaitIndex (repoUrl : JsString).

Module ChatInput_state.
Record t := mk { message : JsString; repoUrl : JsString }.
End ChatInput_state.

Record World := mkWorld {
  messages : list Message.t;           (* useState<Message[]>([]) *)
  isProcessing : bool;                 (* useState(false) *)
  input : ChatInput_state.t;           (* the two useState('') of ChatInput *)
  pending : list Pending;
  trace : list Effect;
  clock : nat -> Z;                    (* the n-th reading of the clock *)
  reads : nat                          (* readings taken so far *)
}.

Definition initial (clk : nat -> Z) : World :=
  {| messages := []; isProcessing := false;
     input := ChatInput_state.mk [] [];
     pending := []; trace := []; clock := clk; reads := 0 |}.

(* ------------------------------------------------------------------ *)
(** ** Computations: state and exceptions *)

Inductive Completion (A : Type) :=
| Normal (a : A)
| Throw (e : Thrown).
Arguments Normal {A} a.
Arguments Throw {A} e.

Definition M (A : Type) := World -> Completion A * World.

Definition ret {A} (a : A) : M A := fun w => (Normal a, w).

Definition bind {A B} (m : M A) (k : A -> M B) : M B :=
  fun w =>
    match m w with
    | (Normal a, w1) => k a w1
    | (Throw e, w1) => (Throw e, w1)
    end.

Declare Scope js_scope.
Delimit Scope js_scope with js.
Notation "x <- m ;; k" := (bind m (fun x => k))
  (at level 61, m at next level, right associativity) : js_scope.
Notation "m ;; k" := (bind m (fun _ => k))
  (at level 61, right associativity) : js_scope.
Open Scope js_scope.

Definition throw {A} (e : Thrown) : M A := fun w => (Throw e, w).

(** [await p] on a promise that has settled. *)
Definition await {A} (p : Outcome A) : M A :=
  match p with
  | Resolved a => ret a
  | Rejected e => throw e
  end.

(** [try { body } catch (error) { handler } finally { final }]. *)
Definition try_catch_finally {A} (body : M A) (handler : Thrown -> M A)
    (final : M unit) : M A :=
  fun w =>
    let r := match body w with
             | (Normal a, w1) => (Normal a, w1)
             | (Throw e, w1) => handler e w1
             end in
    match final (snd r) with
    | (Normal _, w2) => (fst r, w2)
    | (Throw e, w2) => (Throw e, w2)
    end.

Definition exec {A} (m : M A) (w : World) : World := snd (m w).
Definition completion {A} (m : M A) (w : World) : Completion A := fst (m w).

Definition modify (f : World -> World) : M unit := fun w => (Normal tt, f w).
Definition gets {A} (f : World -> A) : M A := fun w => (Normal (f w), w).

Definition emit (e : Effect) : M unit :=
  modify (fun w =>
    {| messages := messages w; isProcessing := isProcessing w;
       input := input w; pending := pending w;
       trace := trace w ++ [e]; clock := clock w; reads := reads w |}).

(** One reading of the clock, as [Date.now()] and [new Date()] take. *)
Definition read_clock : M Z :=
  fun w =>
    (Normal (clock w (reads w)),
     {| messages := messages w; isProcessing := isProcessing w;
        input := input w; pending := pending w;
        trace := trace w; clock := clock w; reads := S (reads w) |}).

Definition Date_now : M Z := read_clock.
Definition new_Date : M Z := read_clock.

Definition console_error (label : JsString) (e : Thrown) : M unit :=
  emit (ConsoleError label e).

(** The function stops at an [await]: it is resumed by [Settle]. *)
Definition suspend (p : Pending) : M unit :=
  modify (fun w =>
    {| messages := messages w; isProcessing := isProcessing w;
       input := input w; pending := pending w ++ [p];
       trace := trace w; clock := clock w; reads := reads w |}).

(* ------------------------------------------------------------------ *)
(** ** services/api.ts *)

Module api.

Definition API_BASE_URL : JsString := lit "http://localhost:8000/api".

(** [axios.post(url, data)]: the request leaves. *)
Definition axios_post (url : JsString) (body : Body) : M unit :=
  emit (AxiosPost url body).

(** [indexRepository], up to its [await]. *)
Definition indexRepository (data : IndexRequest.t) : M unit :=
  axios_post (API_BASE_URL ++ lit "/index") (IndexBody data).

(** [indexRepository], from [const response = await ...] on. *)
Definition indexRepository_await
    (reply : Outcome (AxiosResponse Status.t)) : M Status.t :=
  response <- await reply ;;
  ret (data response).

(** [queryRepository], up to its [await]. *)
Definition queryRepository (data : QueryRequest.t) : M unit :=
  axios_post (API_BASE_URL ++ lit "/query") (QueryBody data).

(** [queryRepository], from [const response = await ...] on. *)
Definition queryRepository_await
    (reply : Outcome (AxiosResponse QueryResponse.t)) : M QueryResponse.t :=
  response <- await reply ;;
  ret (data response).

End api.

(* ------------------------------------------------------------------ *)
(** ** components/ChatMessage.tsx *)

Inductive ColorMode := light | dark.

(** Chakra's [useColorModeValue(light, dark)]. *)
Definition useColorModeValue {A} (mode : ColorMode) (l d : A) : A :=
  match mode with light => l | dark => d end.

Inductive IconType := FaUser | FaGithub.

Module ChatMessage.

(** [s.startsWith(needle)] and [s.includes(needle)]. *)
Fixpoint startsWith (s needle : JsString) : bool :=
  match needle, s with
  | [], _ => true
  | _ :: _, [] => false
  | n :: needle', c :: s' => (c =? n)%N && startsWith s' needle'
  end.

Fixpoint includes (s needle : JsString) : bool :=
  startsWith s needle ||
  match s with
  | [] => false
  | _ :: s' => includes s' needle
  end.

(** [s.replace(/\n$/, '')]: without the [m] flag [$] is the end of the
    string, so the only possible match is a line feed in last place. *)
Fixpoint replace_final_newline (s : JsString) : JsString :=
  match s with
  | [] => []
  | c :: s' =>
      match s' with
      | [] => if (c =? 0x000A)%N then [] else [c]
      | _ :: _ => c :: replace_final_newline s'
      end
  end.

(** What the [code] component hands to Chakra's [Code]. *)
Record CodeView := mkCodeView {
  code_className : option JsString;
  code_padded : bool;               (* p={2} w="100%" borderRadius="md" *)
  code_children : JsString
}.

(** The [code] component given to [ReactMarkdown], on string children.
    ([match], the result of the regular expression, is not used.) *)
Definition code (className : option JsString) (children : JsString) : CodeView :=
  let isInline :=
    negb (match className with
          | Some c => includes c (lit "language-")
          | None => false            (* !undefined *)
          end) in
  if isInline then
    {| code_className := className; code_padded := true;
       code_children := replace_final_newline children |}
  else
    {| code_className := className; code_padded := false;
       code_children := children |}.

(** One box of the "Relevant code" list. *)
Record ChunkBox := mkChunkBox {
  key : nat;                        (* key={index} *)
  box_bg : JsString;
  box_file_path : JsString;
  box_text : JsString
}.

(** [chunks.map((chunk, index) => ...)]. *)
Fixpoint map_index {A B} (f : A -> nat -> B) (l : list A) (index : nat) : list B :=
  match l with
  | [] => []
  | x :: l' => f x index :: map_index f l' (S index)
  end.

Record View := mkView {
  alignSelf : JsString;
  bg : JsString;
  icon : IconType;
  iconColor : JsString;
  label : JsString;
  markdown : JsString;                    (* the child of ReactMarkdown *)
  relevantCode : option (list ChunkBox)   (* None: the list is not rendered *)
}.

Definition render (mode : ColorMode) (message : Message.t) : View :=
  let userBgColor := useColorModeValue mode (lit "blue.50") (lit "blue.900") in
  let botBgColor := useColorModeValue mode (lit "gray.50") (lit "gray.700") in
  let chunkBgColor :=
    useColorModeValue mode (lit "whiteAlpha.700") (lit "whiteAlpha.100") in
  let isUser :=
    match Message.sender message with user => true | bot => false end in
  {| alignSelf := if isUser then lit "flex-end" else lit "flex-start";
     bg := if isUser then userBgColor else botBgColor;
     icon := if isUser then FaUser else FaGithub;
     iconColor := if isUser then lit "blue.500" else lit "gray.500";
     label := if isUser then lit "You" else lit "GitHub Assistant";
     markdown := Message.content message;
     relevantCode :=
       match Message.chunks message with
       | Some chunks =>
           if 0 <? List.length chunks then
             Some (map_index
                     (fun chunk index =>
                        {| key := index; box_bg := chunkBgColor;
                           box_file_path := Chunk.file_path chunk;
                           box_text := Chunk.text chunk |})
                     chunks 0)
           else None
       | None => None
       end |}.

End ChatMessage.

(* ------------------------------------------------------------------ *)
(** ** App.tsx *)

Module App.

(** [setMessages(updater)]: the updater is applied to the latest state. *)
Definition setMessages (updater : list Message.t -> list Message.t) : M unit :=
  next <- gets (fun w => updater (messages w)) ;;
  modify (fun w =>
    {| messages := next; isProcessing := isProcessing w;
       input := input w; pending := pending w;
       trace := trace w; clock := clock w; reads := reads w |}) ;;
  emit (SetMessages next).

Definition setIsProcessing (b : bool) : M unit :=
  modify (fun w =>
    {| messages := messages w; isProcessing := b;
       input := input w; pending := pending w;
       trace := trace w; clock := clock w; reads := reads w |}) ;;
  emit (SetIsProcessing b).

Definition addMessage (message : Draft.t) : M unit :=
  now <- Date_now ;;
  stamp <- new_Date ;;
  let newMessage :=
    {| Message.id := toString now;
       Message.content := Draft.content message;
       Message.sender := Draft.sender message;
       Message.timestamp := stamp;
       Message.chunks := Draft.chunks message |} in
  setMessages (fun prev => prev ++ [newMessage]).

(** [handleSendMessage(content, repoUrl)], up to the [await] of line 60. *)
Definition handleSendMessage (content repoUrl : JsString) : M unit :=
  let userMessage :=
    {| Draft.content := content; Draft.sender := user;
       Draft.chunks := None |} in
  addMessage userMessage ;;
  setIsProcessing true ;;
  api.queryRepository
    {| QueryRequest.question := content;
       QueryRequest.repo_url := repoUrl;
       QueryRequest.top_k := Some 3%Z |} ;;
  suspend AwaitQuery.

(** [handleSendMessage], resumed when the query settles. *)
Definition handleSendMessage_await
    (reply : Outcome (AxiosResponse QueryResponse.t)) : M unit :=
  try_catch_finally
    (response <- api.queryRepository_await reply ;;
     let botMessage :=
       {| Draft.content := QueryResponse.answer response;
          Draft.sender := bot;
          Draft.chunks := Some (QueryResponse.chunks response) |} in
     addMessage botMessage)
    (fun error =>
       console_error (lit "Error sending message:") error ;;
       let errorMessage :=
         {| Draft.content :=
              lit "Sorry, I encountered an error processing your request.";
            Draft.sender := bot;
            Draft.chunks := None |} in
       addMessage errorMessage)
    (setIsProcessing false).

(** [handleIndexRepository(repoUrl)], up to the [await] of line 89. *)
Definition handleIndexRepository (repoUrl : JsString) : M unit :=
  if negb (truthy repoUrl) then ret tt
  else
    setIsProcessing true ;;
    api.indexRepository
      {| IndexRequest.repo_url := repoUrl; IndexRequest.branch := None |} ;;
    suspend (AwaitIndex repoUrl).

(** [handleIndexRepository], resumed when the indexing call settles. *)
Definition handleIndexRepository_await (repoUrl : JsString)
    (reply : Outcome (AxiosResponse Status.t)) : M unit :=
  try_catch_finally
    (_ <- api.indexRepository_await reply ;;
     let successMessage :=
       {| Draft.content := lit "Successfully indexed repository: " ++ repoUrl;
          Draft.sender := bot;
          Draft.chunks := None |} in
     addMessage successMessage)
    (fun error =>
       console_error (lit "Error indexing repository:") error ;;
       let errorMessage :=
         {| Draft.content :=
              lit "Failed to index repository. Please check the URL and try again.";
            Draft.sender := bot;
            Draft.chunks := None |} in
       addMessage errorMessage)
    (setIsProcessing false).

(** The chat area of the render: the welcome screen, or one [ChatMessage]
    per Turn, keyed by the id of the Turn. *)
Inductive ChatArea :=
| Welcome
| Transcript (items : list (JsString * ChatMessage.View)).

Definition chatArea (mode : ColorMode) (w : World) : ChatArea :=
  if List.length (messages w) =? 0 then Welcome
  else Transcript
         (map (fun message =>
                 (Message.id message, ChatMessage.render mode message))
              (messages w)).

End App.

(* ------------------------------------------------------------------ *)
(** ** components/ChatInput.tsx *)

Module ChatInput.

Definition message (w : World) : JsString := ChatInput_state.message (input w).
Definition repoUrl (w : World) : JsString := ChatInput_state.repoUrl (input w).

Definition setMessage (v : JsString) : M unit :=
  modify (fun w =>
    {| messages := messages w; isProcessing := isProcessing w;
       input := ChatInput_state.mk v (repoUrl w); pending := pending w;
       trace := trace w; clock := clock w; reads := reads w |}).

Definition setRepoUrl (v : JsString) : M unit :=
  modify (fun w =>
    {| messages := messages w; isProcessing := isProcessing w;
       input := ChatInput_state.mk (message w) v; pending := pending w;
       trace := trace w; clock := clock w; reads := reads w |}).

(** The [onChange] of the two inputs: [e.target.value] is stored. *)
Definition onChange_repoUrl (value : JsString) : M unit := setRepoUrl value.
Definition onChange_message (value : JsString) : M unit := setMessage value.

(** [handleSendMessage], with the [onSendMessage] prop, as the render made
    in the world it runs in creates it: [message] and [repoUrl] are the
    state that render saw.  The deferred [focus()] of the input touches no
    state of the two components. *)
Definition handleSendMessage
    (onSendMessage : JsString -> JsString -> M unit) : M unit :=
  message <- gets message ;;
  repoUrl <- gets repoUrl ;;
  if truthy (trim message) && truthy (trim repoUrl) then
    onSendMessage message repoUrl ;;
    setMessage []
  else ret tt.

(** The handler [handleSendMessage] that a render in which the fields held
    [message] and [repoUrl] created: a closure over these two values,
    whatever the fields hold when it is run. *)
Definition handleSendMessage_closure (message repoUrl : JsString)
    (onSendMessage : JsString -> JsString -> M unit) : M unit :=
  if truthy (trim message) && truthy (trim repoUrl) then
    onSendMessage message repoUrl ;;
    setMessage []
  else ret tt.

(** [handleIndexClick], with the [onIndexRepository] prop, as the render
    made in the world it runs in creates it. *)
Definition handleIndexClick
    (onIndexRepository : JsString -> M unit) : M unit :=
  repoUrl <- gets repoUrl ;;
  if truthy (trim repoUrl) then onIndexRepository repoUrl
  else ret tt.

Definition isFormValid (w : World) : bool :=
  (0 <? List.length (trim (message w))) && (0 <? List.length (trim (repoUrl w))).
Definition isRepoUrlValid (w : World) : bool :=
  0 <? List.length (trim (repoUrl w)).

(** The part of a [KeyboardEvent] the handler reads. *)
Record KeyboardEvent := mkKey { key : JsString; shiftKey : bool }.

(** [===] on two strings. *)
Fixpoint strictEquals (a b : JsString) : bool :=
  match a, b with
  | [], [] => true
  | x :: a', y :: b' => (x =? y)%N && strictEquals a' b'
  | _, _ => false
  end.

(** [handleKeyDown]; the result tells whether [e.preventDefault()] was
    called. *)
Definition handleKeyDown
    (onSendMessage : JsString -> JsString -> M unit)
    (e : KeyboardEvent) : M bool :=
  if strictEquals (key e) (lit "Enter") && negb (shiftKey e) then
    handleSendMessage onSendMessage ;;
    ret true
  else ret false.

(** The [onKeyDown] of the URL input: on Enter the question input is
    focused, which touches no state of the two components. *)
Definition onKeyDown_repoUrl (e : KeyboardEvent) : M unit := ret tt.

(** The props the render gives to its four controls. *)
Record Control := mkControl { isDisabled : bool; isLoading : bool }.

Definition repoUrl_input (w : World) : Control :=
  {| isDisabled := isProcessing w; isLoading := false |}.
Definition index_button (w : World) : Control :=
  {| isDisabled := negb (isRepoUrlValid w); isLoading := isProcessing w |}.
Definition question_input (w : World) : Control :=
  {| isDisabled := isProcessing w || negb (isRepoUrlValid w);
     isLoading := false |}.
Definition send_button (w : World) : Control :=
  {| isDisabled := negb (isFormValid w); isLoading := isProcessing w |}.

End ChatInput.

(* ------------------------------------------------------------------ *)
(** ** The two operations and the event loop *)

(** The user fills the fields and sends: [App] renders [ChatInput] with
    [onSendMessage={handleSendMessage}]. *)
Definition submitQuestion (question repoUrl : JsString) : M unit :=
  ChatInput.onChange_repoUrl repoUrl ;;
  ChatInput.onChange_message question ;;
  ChatInput.handleSendMessage App.handleSendMessage.

(** The user fills the URL field and clicks Index: [App] renders
    [ChatInput] with [onIndexRepository={handleIndexRepository}]. *)
Definition requestIndexing (repoUrl : JsString) : M unit :=
  ChatInput.onChange_repoUrl repoUrl ;;
  ChatInput.handleIndexClick App.handleIndexRepository.

(** The checks an operation makes before it does anything. *)
Definition acceptsQuestion (question repoUrl : JsString) : bool :=
  truthy (trim question) && truthy (trim repoUrl).
Definition acceptsIndexing (repoUrl : JsString) : bool :=
  truthy (trim repoUrl) && truthy repoUrl.

Inductive Reply :=
| QueryReply (o : Outcome (AxiosResponse QueryResponse.t))
| IndexReply (o : Outcome (AxiosResponse Status.t)).

Inductive Event :=
| SubmitQuestion (question repoUrl : JsString)
| RequestIndexing (repoUrl : JsString)
| Settle (k : nat) (reply : Reply).   (* the k-th pending call settles *)

Definition resume (p : Pending) (reply : Reply) : option (M unit) :=
  match p, reply with
  | AwaitQuery, QueryReply o => Some (App.handleSendMessage_await o)
  | AwaitIndex repoUrl, IndexReply o =>
      Some (App.handleIndexRepository_await repoUrl o)
  | _, _ => None
  end.

Fixpoint remove_nth {A} (k : nat) (l : list A) : list A :=
  match l, k with
  | [], _ => []
  | _ :: l', 0 => l'
  | x :: l', S k' => x :: remove_nth k' l'
  end.

Definition settle (k : nat) (reply : Reply) : M unit :=
  fun w =>
    match nth_error (pending w) k with
    | Some p =>
        match resume p reply with
        | Some continuation =>
            continuation
              {| messages := messages w; isProcessing := isProcessing w;
                 input := input w; pending := remove_nth k (pending w);
                 trace := trace w; clock := clock w; reads := reads w |}
        | None => (Normal tt, w)
        end
    | None => (Normal tt, w)
    end.

Definition handle (e : Event) : M unit :=
  match e with
  | SubmitQuestion question repoUrl => submitQuestion question repoUrl
  | RequestIndexing repoUrl => requestIndexing repoUrl
  | Settle k reply => settle k reply
  end.

Definition step (w : World) (e : Event) : World := exec (handle e) w.

Definition run (events : list Event) (w : World) : World :=
  fold_left step events w.

(** The accepted operations of a sequence of events. *)
Definition acceptedQuestions (events : list Event) : nat :=
  List.length (filter (fun e => match e with
                           | SubmitQuestion q r => acceptsQuestion q r
                           | _ => false
                           end) events).
Definition acceptedIndexings (events : list Event) : nat :=
  List.length (filter (fun e => match e with
                           | RequestIndexing r => acceptsIndexing r
                           | _ => false
                           end) events).

(* ------------------------------------------------------------------ *)
(** ** What one call does to the world *)

(** The Turn [addMessage] builds in world [w]: its id is the first of the
    two clock readings it takes, its timestamp the second. *)
Definition turn (message : Draft.t) (w : World) : Message.t :=
  {| Message.id := toString (clock w (reads w));
     Message.content := Draft.content message;
     Message.sender := Draft.sender message;
     Message.timestamp := clock w (S (reads w));
     Message.chunks := Draft.chunks message |}.

Definition userMessage (content : JsString) : Draft.t :=
  Draft.mk content user None.
Definition botMessage (response : QueryResponse.t) : Draft.t :=
  Draft.mk (QueryResponse.answer response) bot
           (Some (QueryResponse.chunks response)).
Definition sendErrorMessage : Draft.t :=
  Draft.mk (lit "Sorry, I encountered an error processing your request.")
           bot None.
Definition indexSuccessMessage (repoUrl : JsString) : Draft.t :=
  Draft.mk (lit "Successfully indexed repository: " ++ repoUrl) bot None.
Definition indexErrorMessage : Draft.t :=
  Draft.mk (lit "Failed to index repository. Please check the URL and try again.")
           bot None.

Definition queryPost (content repoUrl : JsString) : Effect :=
  AxiosPost (lit "http://localhost:8000/api/query")
            (QueryBody (QueryRequest.mk content repoUrl (Some 3%Z))).
Definition indexPost (repoUrl : JsString) : Effect :=
  AxiosPost (lit "http://localhost:8000/api/index")
            (IndexBody (IndexRequest.mk repoUrl None)).

(** The world once a suspended handler has run its continuation: one Turn
    more, the flag down, and [before] logged ahead of the two state writes. *)
Definition settled (message : Draft.t) (before : list Effect) (w : World) : World :=
  {| messages := messages w ++ [turn message w];
     isProcessing := false; input := input w;
     pending := pending w;
     trace := trace w ++ before ++
              [SetMessages (messages w ++ [turn message w]);
               SetIsProcessing false];
     clock := clock w; reads := S (S (reads w)) |}.

(** The Turn and the console output a continuation produces. *)
Definition outcomeOfQuery (o : Outcome (AxiosResponse QueryResponse.t))
  : Draft.t * list Effect :=
  match o with
  | Resolved response => (botMessage (data response), [])
  | Rejected e =>
      (sendErrorMessage, [ConsoleError (lit "Error sending message:") e])
  end.

Definition outcomeOfIndex (repoUrl : JsString)
    (o : Outcome (AxiosResponse Status.t)) : Draft.t * list Effect :=
  match o with
  | Resolved _ => (indexSuccessMessage repoUrl, [])
  | Rejected e =>
      (indexErrorMessage, [ConsoleError (lit "Error indexing repository:") e])
  end.

Definition outcomeOf (p : Pending) (reply : Reply)
  : option (Draft.t * list Effect) :=
  match p, reply with
  | AwaitQuery, QueryReply o => Some (outcomeOfQuery o)
  | AwaitIndex repoUrl, IndexReply o => Some (outcomeOfIndex repoUrl o)
  | _, _ => None
  end.

Definition without (k : nat) (w : World) : World :=
  {| messages := messages w; isProcessing := isProcessing w;
     input := input w; pending := remove_nth k (pending w);
     trace := trace w; clock := clock w; reads := reads w |}.

Definition typed (message repoUrl : JsString) (w : World) : World :=
  {| messages := messages w; isProcessing := isProcessing w;
     input := ChatInput_state.mk message repoUrl; pending := pending w;
     trace := trace w; clock := clock w; reads := reads w |}.

(** The writes of the flag and the remote calls among some effects. *)
Definition flagOrCall (e : Effect) : bool :=
  match e with
  | SetIsProcessing _ | AxiosPost _ _ => true
  | SetMessages _ | ConsoleError _ _ => false
  end.

(** Every id of the transcript is one of the clock readings taken so far,
    each reading used for at most one Turn. *)
Definition ids_from_clock (w : World) : Prop :=
  exists readings : list nat,
    map Message.id (messages w) = map (fun i => toString (clock w i)) readings /\
    NoDup readings /\
    Forall (fun i => i < reads w) readings.

(* ------------------------------------------------------------------ *)
(** ** Concrete inputs *)

Definition clock0 : nat -> Z := fun n => (1700000000000 + Z.of_nat n)%Z.
Definition w0 : World := initial clock0.
Definition q0 : JsString := lit "What does main do?".
Definition r0 : JsString := lit "https://github.com/x/y".
Definition response0 : QueryResponse.t :=
  QueryResponse.mk (lit "It starts the app.")
                   [Chunk.mk (lit "func main(){}") (lit "main.go")].
Definition networkError : Thrown := mkThrown (lit "Network Error") None.

(** A world with a query in flight. *)
Definition w_busy : World := run [SubmitQuestion q0 r0] w0.
Definition q_padded : JsString := lit "  What does main do?  ".
Definition blank : JsString := lit "   ".

(** A clock that stands still, as within one millisecond. *)
Definition clock_still : nat -> Z := fun _ => 1700000000000%Z.

(* ------------------------------------------------------------------ *)
(** ** The rendered controls and the events of the user *)

Module UI.

(** Chakra renders a [Button] that has [isDisabled] or [isLoading], and an
    [Input] that has [isDisabled], as a disabled element, and the browser
    sends a disabled element no click, key or change event.  The render
    is taken to be up to date when an event arrives. *)
Definition enabled (c : ChatInput.Control) : bool :=
  negb (ChatInput.isDisabled c || ChatInput.isLoading c).

Inductive Event :=
| ChangeRepoUrl (value : JsString)
| KeyDownRepoUrl (e : ChatInput.KeyboardEvent)
| ClickIndex
| ChangeMessage (value : JsString)
| KeyDownMessage (e : ChatInput.KeyboardEvent)
| ClickSend
| Settled (k : nat) (reply : Reply).

(** An event on a control reaches its handler when the control is enabled. *)
Definition dispatch (control : World -> ChatInput.Control) (handler : M unit)
  : M unit :=
  fun w => if enabled (control w) then handler w else (Normal tt, w).

Definition handle (e : Event) : M unit :=
  match e with
  | ChangeRepoUrl value =>
      dispatch ChatInput.repoUrl_input (ChatInput.onChange_repoUrl value)
  | KeyDownRepoUrl e =>
      dispatch ChatInput.repoUrl_input (ChatInput.onKeyDown_repoUrl e)
  | ClickIndex =>
      dispatch ChatInput.index_button
               (ChatInput.handleIndexClick App.handleIndexRepository)
  | ChangeMessage value =>
      dispatch ChatInput.question_input (ChatInput.onChange_message value)
  | KeyDownMessage e =>
      dispatch ChatInput.question_input
               (_ <- ChatInput.handleKeyDown App.handleSendMessage e ;; ret tt)
  | ClickSend =>
      dispatch ChatInput.send_button
               (ChatInput.handleSendMessage App.handleSendMessage)
  | Settled k reply => settle k reply
  end.

Definition step (w : World) (e : Event) : World := exec (handle e) w.

Definition run (events : list Event) (w : World) : World :=
  fold_left step events w.

End UI.

(* ------------------------------------------------------------------ *)
(** ** Predicates on transcripts, traces and clocks *)

(** The five kinds of Turn the handlers build. *)
Inductive Produced : Draft.t -> Prop :=
| produced_question (content : JsString) :
    Produced (userMessage content)
| produced_answer (response : QueryResponse.t) :
    Produced (botMessage response)
| produced_apology :
    Produced sendErrorMessage
| produced_indexed (repoUrl : JsString) :
    Produced (indexSuccessMessage repoUrl)
| produced_index_failure :
    Produced indexErrorMessage.

(** The Turn [m] carries the content, sender and chunks of the draft [d]. *)
Definition builtFrom (d : Draft.t) (m : Message.t) : Prop :=
  Message.content m = Draft.content d /\
  Message.sender m = Draft.sender d /\
  Message.chunks m = Draft.chunks d.

(** The Turn [m] carries the answer and the chunks of a response that
    arrived, among [events], as the reply to a query. *)
Definition answeredBy (events : list Event) (m : Message.t) : Prop :=
  exists (k : nat) (response : QueryResponse.t),
    In (Settle k (QueryReply (Resolved (mkResponse response)))) events /\
    builtFrom (botMessage response) m.

Definition isPost (e : Effect) : bool :=
  match e with
  | AxiosPost _ _ => true
  | _ => false
  end.

(** A request as the two operations are meant to send it. *)
Definition wellFormed (e : Effect) : Prop :=
  match e with
  | AxiosPost url (QueryBody b) =>
      url = lit "http://localhost:8000/api/query" /\
      trim (QueryRequest.question b) <> [] /\
      trim (QueryRequest.repo_url b) <> [] /\
      QueryRequest.top_k b = Some 3%Z
  | AxiosPost url (IndexBody b) =>
      url = lit "http://localhost:8000/api/index" /\
      trim (IndexRequest.repo_url b) <> [] /\
      IndexRequest.branch b = None
  | _ => True
  end.

(** A clock that never runs backwards. *)
Definition monotone (clk : nat -> Z) : Prop :=
  forall i j, i <= j -> (clk i <= clk j)%Z.

(** Each Turn took two successive readings of the clock, for its id and
    for its timestamp. *)
Definition stamped (w : World) : Prop :=
  Forall (fun m =>
            exists i, S i < reads w /\
                      Message.id m = toString (clock w i) /\
                      Message.timestamp m = clock w (S i))
         (messages w).

(** A transcript made of whole exchanges: a bot Turn alone (the report
    of an indexing) or a user Turn with the bot Turn that follows it. *)
Fixpoint exchanges (senders : list Sender) : bool :=
  match senders with
  | [] => true
  | bot :: rest => exchanges rest
  | user :: rest =>
      match rest with
      | bot :: rest' => exchanges rest'
      | _ => false
      end
  end.

(** The state the rendered controls protect: the flag is down and no call
    is pending, or it is up and the one call of the last operation is. *)
Inductive Guarded (w : World) : Prop :=
| guarded_idle :
    isProcessing w = false -> pending w = [] ->
    exchanges (map Message.sender (messages w)) = true ->
    Guarded w
| guarded_query (earlier : list Sender) :
    isProcessing w = true -> pending w = [AwaitQuery] ->
    map Message.sender (messages w) = earlier ++ [user] ->
    exchanges earlier = true ->
    Guarded w
| guarded_index (repoUrl : JsString) :
    isProcessing w = true -> pending w = [AwaitIndex repoUrl] ->
    exchanges (map Message.sender (messages w)) = true ->
    Guarded w.

(** A second question, and a world with two calls in flight (reached
    through the handlers, not through the controls). *)
Definition q1 : JsString := lit "Where is the entry point?".
Definition w_two_pending : World :=
  run [SubmitQuestion q0 r0; SubmitQuestion q1 r0] w0.

(** A line feed, and a world with one answered question. *)
Definition LF : N := 0x000A%N.
Definition w_answered : World :=
  run [SubmitQuestion q0 r0;
       Settle 0 (QueryReply (Resolved (mkResponse response0)))] w0.

(** Another repository. *)
Definition r1 : JsString := lit "https://github.com/a/b".

(* ------------------------------------------------------------------ *)
(** ** The values behind the types *)

(** TypeScript's types are gone at run time: [api.queryRepository] hands
    over whatever body axios resolved with, and the continuation of
    [handleSendMessage] reads [answer] and [chunks] off it unchecked.
    This module gives that continuation on untyped values. *)
Module Runtime.

(** A value as [JSON.parse] gives it (numbers kept integral), a string
    that was not JSON, or [undefined]. *)
#[warnings="-register-all"] Inductive JsValue :=
| Undefined
| Null
| Boolean (b : bool)
| Num (n : Z)
| Str (s : JsString)
| Arr (items : list JsValue)
| Obj (properties : list (JsString * JsValue)).

(** A [Message] as it is in memory. *)
Record Message := mkMessage {
  id : JsString;
  content : JsValue;
  sender : Sender;
  timestamp : Z;
  chunks : JsValue
}.

Record Draft := mkDraft {
  draft_content : JsValue;
  draft_sender : Sender;
  draft_chunks : JsValue
}.

(** The state the continuation works on. *)
Record State := mkState {
  messages : list Message;
  isProcessing : bool;
  errors : list (JsString * Thrown);    (* what [console.error] was given *)
  clock : nat -> Z;
  reads : nat
}.

Definition R (A : Type) := State -> Completion A * State.

Definition ret {A} (a : A) : R A := fun s => (Normal a, s).

Definition bind {A B} (m : R A) (k : A -> R B) : R B :=
  fun s =>
    match m s with
    | (Normal a, s1) => k a s1
    | (Throw e, s1) => (Throw e, s1)
    end.

Declare Scope runtime_scope.
Notation "x <- m ;; k" := (bind m (fun x => k))
  (at level 61, m at next level, right associativity) : runtime_scope.
Notation "m ;; k" := (bind m (fun _ => k))
  (at level 61, right associativity) : runtime_scope.
Local Open Scope runtime_scope.

Definition throw {A} (e : Thrown) : R A := fun s => (Throw e, s).

Definition await {A} (p : Outcome A) : R A :=
  match p with
  | Resolved a => ret a
  | Rejected e => throw e
  end.

Definition try_catch_finally {A} (body : R A) (handler : Thrown -> R A)
    (final : R unit) : R A :=
  fun s =>
    let r := match body s with
             | (Normal a, s1) => (Normal a, s1)
             | (Throw e, s1) => handler e s1
             end in
    match final (snd r) with
    | (Normal _, s2) => (fst r, s2)
    | (Throw e, s2) => (Throw e, s2)
    end.

Definition read_clock : R Z :=
  fun s =>
    (Normal (clock s (reads s)),
     {| messages := messages s; isProcessing := isProcessing s;
        errors := errors s; clock := clock s; reads := S (reads s) |}).

Definition setMessages (updater : list Message -> list Message) : R unit :=
  fun s =>
    (Normal tt,
     {| messages := updater (messages s); isProcessing := isProcessing s;
        errors := errors s; clock := clock s; reads := reads s |}).

Definition setIsProcessing (b : bool) : R unit :=
  fun s =>
    (Normal tt,
     {| messages := messages s; isProcessing := b;
        errors := errors s; clock := clock s; reads := reads s |}).

Definition console_error (label : JsString) (e : Thrown) : R unit :=
  fun s =>
    (Normal tt,
     {| messages := messages s; isProcessing := isProcessing s;
        errors := errors s ++ [(label, e)];
        clock := clock s; reads := reads s |}).

(** What reading a property of [null] or [undefined] throws. *)
Definition TypeError : Thrown :=
  mkThrown (lit "TypeError: Cannot read properties of null") None.

(** The own property [name] of an object (each name occurs once). *)
Fixpoint lookup (name : JsString) (properties : list (JsString * JsValue))
  : JsValue :=
  match properties with
  | [] => Undefined
  | (key, value) :: rest =>
      if ChatInput.strictEquals key name then value else lookup name rest
  end.

(** [value.name], for the two names the code reads, [answer] and
    [chunks], which no string, number, boolean or array has. *)
Definition getProperty (value : JsValue) (name : JsString) : R JsValue :=
  match value with
  | Undefined | Null => throw TypeError
  | Obj properties => ret (lookup name properties)
  | Boolean _ | Num _ | Str _ | Arr _ => ret Undefined
  end.

(** [api.queryRepository], from [const response = await ...] on. *)
Definition queryRepository_await (reply : Outcome (AxiosResponse JsValue))
  : R JsValue :=
  response <- await reply ;;
  ret (data response).

Definition addMessage (message : Draft) : R unit :=
  now <- read_clock ;;
  stamp <- read_clock ;;
  let newMessage :=
    {| id := toString now;
       content := draft_content message;
       sender := draft_sender message;
       timestamp := stamp;
       chunks := draft_chunks message |} in
  setMessages (fun prev => prev ++ [newMessage]).

(** [handleSendMessage], resumed when the query settles. *)
Definition handleSendMessage_await (reply : Outcome (AxiosResponse JsValue))
  : R unit :=
  try_catch_finally
    (response <- queryRepository_await reply ;;
     answer <- getProperty response (lit "answer") ;;
     chunks <- getProperty response (lit "chunks") ;;
     let botMessage :=
       {| draft_content := answer; draft_sender := bot;
          draft_chunks := chunks |} in
     addMessage botMessage)
    (fun error =>
       console_error (lit "Error sending message:") error ;;
       let errorMessage :=
         {| draft_content :=
              Str (lit "Sorry, I encountered an error processing your request.");
            draft_sender := bot;
            draft_chunks := Undefined |} in
       addMessage errorMessage)
    (setIsProcessing false).

End Runtime.

(** The typed values as they are in memory. *)
Definition ofChunk (chunk : Chunk.t) : Runtime.JsValue :=
  Runtime.Obj [(lit "text", Runtime.Str (Chunk.text chunk));
               (lit "file_path", Runtime.Str (Chunk.file_path chunk))].

Definition ofChunks (chunks : option (list Chunk.t)) : Runtime.JsValue :=
  match chunks with
  | Some l => Runtime.Arr (map ofChunk l)
  | None => Runtime.Undefined
  end.

Definition ofMessage (m : Message.t) : Runtime.Message :=
  {| Runtime.id := Message.id m;
     Runtime.content := Runtime.Str (Message.content m);
     Runtime.sender := Message.sender m;
     Runtime.timestamp := Message.timestamp m;
     Runtime.chunks := ofChunks (Message.chunks m) |}.

Definition ofResponse (response : QueryResponse.t) : Runtime.JsValue :=
  Runtime.Obj
    [(lit "answer", Runtime.Str (QueryResponse.answer response));
     (lit "chunks", Runtime.Arr (map ofChunk (QueryResponse.chunks response)))].

Definition ofReply (o : Outcome (AxiosResponse QueryResponse.t))
  : Outcome (AxiosResponse Runtime.JsValue) :=
  match o with
  | Resolved response => Resolved (mkResponse (ofResponse (data response)))
  | Rejected e => Rejected e
  end.

Definition consoleOf (effects : list Effect) : list (JsString * Thrown) :=
  flat_map (fun e => match e with
                     | ConsoleError label error => [(label, error)]
                     | _ => []
                     end) effects.

Definition ofWorld (w : World) : Runtime.State :=
  {| Runtime.messages := map ofMessage (messages w);
     Runtime.isProcessing := isProcessing w;
     Runtime.errors := consoleOf (trace w);
     Runtime.clock := clock w;
     Runtime.reads := reads w |}.

(** The fixed apology, as a value. *)
Definition apology : Runtime.JsValue :=
  Runtime.Str (lit "Sorry, I encountered an error processing your request.").

(** Bodies of a 200 response that are no [QueryResponse]: the empty
    object, and text that is not JSON. *)
Definition emptyObject : Runtime.JsValue := Runtime.Obj [].
Definition notJson : Runtime.JsValue := Runtime.Str (lit "<html>Bad Gateway</html>").
(* ------------------------------------------------------------------ *)
(** ** Equations of the handlers *)

Lemma addMessage_eq (message : Draft.t) (w : World) :
  App.addMessage message w =
  (Normal tt,
   {| messages := messages w ++ [turn message w];
      isProcessing := isProcessing w; input := input w;
      pending := pending w;
      trace := trace w ++ [SetMessages (messages w ++ [turn message w])];
      clock := clock w; reads := S (S (reads w)) |}).
Proof. reflexivity. Qed.

Lemma handleSendMessage_eq (content repoUrl : JsString) (w : World) :
  App.handleSendMessage content repoUrl w =
  (Normal tt,
   {| messages := messages w ++ [turn (userMessage content) w];
      isProcessing := true; input := input w;
      pending := pending w ++ [AwaitQuery];
      trace := trace w ++
               [SetMessages (messages w ++ [turn (userMessage content) w]);
                SetIsProcessing true;
                queryPost content repoUrl];
      clock := clock w; reads := S (S (reads w)) |}).
Proof.
  unfold App.handleSendMessage, bind.
  rewrite addMessage_eq. cbn. rewrite <- !app_assoc. reflexivity.
Qed.

Lemma handleSendMessage_await_resolved response (w : World) :
  App.handleSendMessage_await (Resolved response) w =
  (Normal tt, settled (botMessage (data response)) [] w).
Proof.
  unfold App.handleSendMessage_await, try_catch_finally, bind.
  cbn. rewrite <- !app_assoc. reflexivity.
Qed.

Lemma handleSendMessage_await_rejected (e : Thrown) (w : World) :
  App.handleSendMessage_await (Rejected e) w =
  (Normal tt,
   settled sendErrorMessage [ConsoleError (lit "Error sending message:") e] w).
Proof.
  unfold App.handleSendMessage_await, try_catch_finally, bind.
  cbn. rewrite <- !app_assoc. reflexivity.
Qed.

Lemma handleIndexRepository_eq (repoUrl : JsString) (w : World) :
  App.handleIndexRepository repoUrl w =
  if truthy repoUrl then
    (Normal tt,
     {| messages := messages w; isProcessing := true; input := input w;
        pending := pending w ++ [AwaitIndex repoUrl];
        trace := trace w ++ [SetIsProcessing true; indexPost repoUrl];
        clock := clock w; reads := reads w |})
  else (Normal tt, w).
Proof.
  unfold App.handleIndexRepository.
  destruct (truthy repoUrl); [|reflexivity].
  cbn. rewrite <- !app_assoc. reflexivity.
Qed.

Lemma handleIndexRepository_await_resolved repoUrl response (w : World) :
  App.handleIndexRepository_await repoUrl (Resolved response) w =
  (Normal tt, settled (indexSuccessMessage repoUrl) [] w).
Proof.
  unfold App.handleIndexRepository_await, try_catch_finally, bind.
  cbn. rewrite <- !app_assoc. reflexivity.
Qed.

Lemma handleIndexRepository_await_rejected repoUrl (e : Thrown) (w : World) :
  App.handleIndexRepository_await repoUrl (Rejected e) w =
  (Normal tt,
   settled indexErrorMessage
           [ConsoleError (lit "Error indexing repository:") e] w).
Proof.
  unfold App.handleIndexRepository_await, try_catch_finally, bind.
  cbn. rewrite <- !app_assoc. reflexivity.
Qed.

Lemma settle_eq (k : nat) (reply : Reply) (w : World) :
  settle k reply w =
  match nth_error (pending w) k with
  | Some p =>
      match outcomeOf p reply with
      | Some (message, before) =>
          (Normal tt, settled message before (without k w))
      | None => (Normal tt, w)
      end
  | None => (Normal tt, w)
  end.
Proof.
  unfold settle. destruct (nth_error (pending w) k) as [p|]; [|reflexivity].
  destruct p, reply as [o|o]; cbn [resume outcomeOf]; try reflexivity;
    destruct o; cbn [outcomeOfQuery outcomeOfIndex].
  - apply handleSendMessage_await_resolved.
  - apply handleSendMessage_await_rejected.
  - apply handleIndexRepository_await_resolved.
  - apply handleIndexRepository_await_rejected.
Qed.

Lemma submitQuestion_eq (question repoUrl : JsString) (w : World) :
  submitQuestion question repoUrl w =
  if acceptsQuestion question repoUrl then
    (Normal tt,
     {| messages := messages w ++ [turn (userMessage question) w];
        isProcessing := true;
        input := ChatInput_state.mk [] repoUrl;
        pending := pending w ++ [AwaitQuery];
        trace := trace w ++
                 [SetMessages (messages w ++ [turn (userMessage question) w]);
                  SetIsProcessing true;
                  queryPost question repoUrl];
        clock := clock w; reads := S (S (reads w)) |})
  else (Normal tt, typed question repoUrl w).
Proof.
  unfold submitQuestion, acceptsQuestion, ChatInput.handleSendMessage, bind.
  cbn -[App.handleSendMessage trim truthy].
  destruct (truthy (trim question) && truthy (trim repoUrl)); [|reflexivity].
  rewrite handleSendMessage_eq. reflexivity.
Qed.

Lemma trim_truthy (s : JsString) : truthy (trim s) = true -> truthy s = true.
Proof. destruct s; [discriminate | reflexivity]. Qed.

Lemma acceptsIndexing_trim (repoUrl : JsString) :
  acceptsIndexing repoUrl = truthy (trim repoUrl).
Proof.
  unfold acceptsIndexing.
  destruct (truthy (trim repoUrl)) eqn:E; [|reflexivity].
  now rewrite (trim_truthy _ E).
Qed.

Lemma requestIndexing_eq (repoUrl : JsString) (w : World) :
  requestIndexing repoUrl w =
  if acceptsIndexing repoUrl then
    (Normal tt,
     {| messages := messages w; isProcessing := true;
        input := ChatInput_state.mk (ChatInput.message w) repoUrl;
        pending := pending w ++ [AwaitIndex repoUrl];
        trace := trace w ++ [SetIsProcessing true; indexPost repoUrl];
        clock := clock w; reads := reads w |})
  else (Normal tt, typed (ChatInput.message w) repoUrl w).
Proof.
  unfold requestIndexing, acceptsIndexing, ChatInput.handleIndexClick, bind.
  cbn -[App.handleIndexRepository trim truthy].
  destruct (truthy (trim repoUrl)); [|reflexivity].
  rewrite handleIndexRepository_eq.
  destruct (truthy repoUrl); reflexivity.
Qed.

Lemma nth_error_last {A} (l : list A) (x : A) :
  nth_error (l ++ [x]) (length l) = Some x.
Proof. induction l; [reflexivity | assumption]. Qed.

Lemma remove_nth_last {A} (l : list A) (x : A) :
  remove_nth (length l) (l ++ [x]) = l.
Proof. induction l; [reflexivity | cbn; now f_equal]. Qed.

Lemma remove_nth_length {A} (k : nat) (l : list A) (x : A) :
  nth_error l k = Some x -> S (length (remove_nth k l)) = length l.
Proof.
  revert k; induction l as [|a l IH]; intros [|k] H; try discriminate.
  - reflexivity.
  - cbn in *. f_equal. now apply IH.
Qed.

(** The operation started last is the last of the pending ones. *)
Lemma run_question (w : World) (question repoUrl : JsString) o :
  acceptsQuestion question repoUrl = true ->
  run [SubmitQuestion question repoUrl;
       Settle (length (pending w)) (QueryReply o)] w =
  settled (fst (outcomeOfQuery o)) (snd (outcomeOfQuery o))
    {| messages := messages w ++ [turn (userMessage question) w];
       isProcessing := true;
       input := ChatInput_state.mk [] repoUrl;
       pending := pending w;
       trace := trace w ++
                [SetMessages (messages w ++ [turn (userMessage question) w]);
                 SetIsProcessing true;
                 queryPost question repoUrl];
       clock := clock w; reads := S (S (reads w)) |}.
Proof.
  intros H. unfold run, fold_left, step, exec, handle.
  rewrite submitQuestion_eq, H. cbn [snd].
  rewrite settle_eq. cbn [pending].
  rewrite nth_error_last. cbn [outcomeOf].
  destruct (outcomeOfQuery o) as [message before]. cbn [snd fst].
  unfold without. cbn [pending messages isProcessing input trace clock reads].
  now rewrite remove_nth_last.
Qed.

Lemma run_indexing (w : World) (repoUrl : JsString) o :
  acceptsIndexing repoUrl = true ->
  run [RequestIndexing repoUrl;
       Settle (length (pending w)) (IndexReply o)] w =
  settled (fst (outcomeOfIndex repoUrl o)) (snd (outcomeOfIndex repoUrl o))
    {| messages := messages w;
       isProcessing := true;
       input := ChatInput_state.mk (ChatInput.message w) repoUrl;
       pending := pending w;
       trace := trace w ++ [SetIsProcessing true; indexPost repoUrl];
       clock := clock w; reads := reads w |}.
Proof.
  intros H. unfold run, fold_left, step, exec, handle.
  rewrite requestIndexing_eq, H. cbn [snd].
  rewrite settle_eq. cbn [pending].
  rewrite nth_error_last. cbn [outcomeOf].
  destruct (outcomeOfIndex repoUrl o) as [message before]. cbn [snd fst].
  unfold without. cbn [pending messages isProcessing input trace clock reads].
  now rewrite remove_nth_last.
Qed.

(* ------------------------------------------------------------------ *)
(** ** The query operation *)

(** C3. An accepted [submitQuestion question repoUrl] whose query succeeds
    with [response]: the user Turn, with [question] as content, is appended
    first, the flag is raised, the query is posted with [question],
    [repoUrl] and [top_k] 3, and when the answer arrives exactly one bot
    Turn is appended, with the answer as content and the returned chunks
    (empty or not) attached. *)
Theorem question_answered :
  forall (w : World) (question repoUrl : JsString) (response : QueryResponse.t),
    acceptsQuestion question repoUrl = true ->
    let w1 := run [SubmitQuestion question repoUrl] w in
    let w2 := run [SubmitQuestion question repoUrl;
                   Settle (length (pending w))
                          (QueryReply (Resolved (mkResponse response)))] w in
    exists userTurn botTurn : Message.t,
      messages w1 = messages w ++ [userTurn] /\
      trace w1 = trace w ++
                 [SetMessages (messages w ++ [userTurn]);
                  SetIsProcessing true;
                  AxiosPost (api.API_BASE_URL ++ lit "/query")
                    (QueryBody
                       {| QueryRequest.question := question;
                          QueryRequest.repo_url := repoUrl;
                          QueryRequest.top_k := Some 3%Z |})] /\
      messages w2 = messages w ++ [userTurn; botTurn] /\
      trace w2 = trace w1 ++
                 [SetMessages (messages w ++ [userTurn; botTurn]);
                  SetIsProcessing false] /\
      Message.sender userTurn = user /\
      Message.content userTurn = question /\
      Message.sender botTurn = bot /\
      Message.content botTurn = QueryResponse.answer response /\
      Message.chunks botTurn = Some (QueryResponse.chunks response).
Proof.
  intros w question repoUrl response H w1 w2.
  assert (E1 : w1 = exec (submitQuestion question repoUrl) w) by reflexivity.
  unfold exec in E1. rewrite submitQuestion_eq, H in E1. cbn [snd] in E1.
  assert (E2 := run_question w question repoUrl
                  (Resolved (mkResponse response)) H).
  fold w2 in E2. cbn [outcomeOfQuery fst snd data] in E2.
  exists (turn (userMessage question) w), (turn (botMessage response) w1).
  rewrite E2, E1. unfold settled.
  cbn [messages trace clock reads app].
  rewrite <- !app_assoc. cbn [app].
  repeat split; reflexivity.
Qed.

Lemma question_answered_witness :
  acceptsQuestion q0 r0 = true /\
  exists userTurn botTurn : Message.t,
    messages (run [SubmitQuestion q0 r0] w0) = messages w0 ++ [userTurn] /\
    trace (run [SubmitQuestion q0 r0] w0) =
      trace w0 ++
      [SetMessages (messages w0 ++ [userTurn]);
       SetIsProcessing true;
       AxiosPost (api.API_BASE_URL ++ lit "/query")
         (QueryBody
            {| QueryRequest.question := q0;
               QueryRequest.repo_url := r0;
               QueryRequest.top_k := Some 3%Z |})] /\
    messages (run [SubmitQuestion q0 r0;
                   Settle (length (pending w0))
                          (QueryReply (Resolved (mkResponse response0)))] w0) =
      messages w0 ++ [userTurn; botTurn] /\
    trace (run [SubmitQuestion q0 r0;
                Settle (length (pending w0))
                       (QueryReply (Resolved (mkResponse response0)))] w0) =
      trace (run [SubmitQuestion q0 r0] w0) ++
      [SetMessages (messages w0 ++ [userTurn; botTurn]);
       SetIsProcessing false] /\
    Message.sender userTurn = user /\
    Message.content userTurn = q0 /\
    Message.sender botTurn = bot /\
    Message.content botTurn = QueryResponse.answer response0 /\
    Message.chunks botTurn = Some (QueryResponse.chunks response0).
Proof.
  split; [reflexivity | exact (question_answered w0 q0 r0 response0 eq_refl)].
Defined.

(** C10. The question is validated on its trimmed form but used as typed:
    the content of the user Turn and the [question] of the posted request
    are the input string itself, surrounding white space included. *)
Theorem question_sent_verbatim :
  forall (w : World) (question repoUrl : JsString),
    acceptsQuestion question repoUrl = true ->
    let w1 := run [SubmitQuestion question repoUrl] w in
    exists (userTurn : Message.t) (effects : list Effect),
      messages w1 = messages w ++ [userTurn] /\
      Message.content userTurn = question /\
      trace w1 = effects ++
                 [AxiosPost (api.API_BASE_URL ++ lit "/query")
                    (QueryBody
                       {| QueryRequest.question := question;
                          QueryRequest.repo_url := repoUrl;
                          QueryRequest.top_k := Some 3%Z |})].
Proof.
  intros w question repoUrl H w1.
  assert (E1 : w1 = exec (submitQuestion question repoUrl) w) by reflexivity.
  unfold exec in E1. rewrite submitQuestion_eq, H in E1. cbn [snd] in E1.
  exists (turn (userMessage question) w).
  exists (trace w ++ [SetMessages (messages w ++ [turn (userMessage question) w]);
                      SetIsProcessing true]).
  rewrite E1. cbn [messages trace]. rewrite <- !app_assoc.
  repeat split; reflexivity.
Qed.

Lemma question_sent_verbatim_witness :
  trim q_padded <> q_padded /\
  acceptsQuestion q_padded r0 = true /\
  exists (userTurn : Message.t) (effects : list Effect),
    messages (run [SubmitQuestion q_padded r0] w0) = messages w0 ++ [userTurn] /\
    Message.content userTurn = q_padded /\
    trace (run [SubmitQuestion q_padded r0] w0) =
      effects ++
      [AxiosPost (api.API_BASE_URL ++ lit "/query")
         (QueryBody
            {| QueryRequest.question := q_padded;
               QueryRequest.repo_url := r0;
               QueryRequest.top_k := Some 3%Z |})].
Proof.
  split; [discriminate |].
  split; [reflexivity | exact (question_sent_verbatim w0 q_padded r0 eq_refl)].
Defined.

(* ------------------------------------------------------------------ *)
(** ** The indexing operation *)

(** C5. An accepted [requestIndexing repoUrl] appends nothing when it is
    called and exactly one Turn when the call settles: a bot Turn without
    chunks, whose content names [repoUrl] as indexed on success and is the
    fixed "check the URL" message on failure. *)
Theorem indexing_reported :
  forall (w : World) (repoUrl : JsString) (o : Outcome (AxiosResponse Status.t)),
    acceptsIndexing repoUrl = true ->
    let w1 := run [RequestIndexing repoUrl] w in
    let w2 := run [RequestIndexing repoUrl;
                   Settle (length (pending w)) (IndexReply o)] w in
    messages w1 = messages w /\
    exists botTurn : Message.t,
      messages w2 = messages w ++ [botTurn] /\
      Message.sender botTurn = bot /\
      Message.chunks botTurn = None /\
      Message.content botTurn =
        match o with
        | Resolved _ => lit "Successfully indexed repository: " ++ repoUrl
        | Rejected _ =>
            lit "Failed to index repository. Please check the URL and try again."
        end.
Proof.
  intros w repoUrl o H w1 w2.
  assert (E1 : w1 = exec (requestIndexing repoUrl) w) by reflexivity.
  unfold exec in E1. rewrite requestIndexing_eq, H in E1. cbn [snd] in E1.
  assert (E2 := run_indexing w repoUrl o H). fold w2 in E2.
  split; [now rewrite E1 |].
  rewrite E2. unfold settled. cbn [messages clock reads].
  eexists; split; [reflexivity |].
  destruct o; repeat split; reflexivity.
Qed.

Lemma indexing_reported_witness :
  acceptsIndexing r0 = true /\
  messages (run [RequestIndexing r0] w0) = messages w0 /\
  exists botTurn : Message.t,
    messages (run [RequestIndexing r0;
                   Settle (length (pending w0))
                          (IndexReply (Rejected networkError))] w0) =
      messages w0 ++ [botTurn] /\
    Message.sender botTurn = bot /\
    Message.chunks botTurn = None /\
    Message.content botTurn =
      lit "Failed to index repository. Please check the URL and try again.".
Proof.
  split; [reflexivity |].
  exact (indexing_reported w0 r0 (Rejected networkError) eq_refl).
Defined.

(* ------------------------------------------------------------------ *)
(** ** Validation *)

Lemma truthy_nil (s : JsString) : s = [] -> truthy s = false.
Proof. now intros ->. Qed.

(** C6. With a question or a repository URL that trims to the empty
    string [submitQuestion] does nothing, and with a repository URL that
    trims to the empty string [requestIndexing] does nothing: no Turn is
    appended, no effect at all is performed (so no request is posted),
    the flag and the pending calls are as before. *)
Theorem blank_input_is_noop :
  forall (w : World) (question repoUrl : JsString),
    (trim question = [] \/ trim repoUrl = [] ->
       let w' := exec (submitQuestion question repoUrl) w in
       messages w' = messages w /\ trace w' = trace w /\
       isProcessing w' = isProcessing w /\ pending w' = pending w /\
       completion (submitQuestion question repoUrl) w = Normal tt) /\
    (trim repoUrl = [] ->
       let w' := exec (requestIndexing repoUrl) w in
       messages w' = messages w /\ trace w' = trace w /\
       isProcessing w' = isProcessing w /\ pending w' = pending w /\
       completion (requestIndexing repoUrl) w = Normal tt).
Proof.
  intros w question repoUrl; split.
  - intros H w'.
    assert (A : acceptsQuestion question repoUrl = false).
    { unfold acceptsQuestion. destruct H as [H|H]; rewrite (truthy_nil H).
      - reflexivity.
      - apply andb_false_r. }
    subst w'. unfold exec, completion. rewrite submitQuestion_eq, A.
    repeat split; reflexivity.
  - intros H w'.
    assert (A : acceptsIndexing repoUrl = false).
    { rewrite acceptsIndexing_trim. now apply truthy_nil. }
    subst w'. unfold exec, completion. rewrite requestIndexing_eq, A.
    repeat split; reflexivity.
Qed.

Lemma blank_input_is_noop_witness :
  (trim q0 = [] \/ trim blank = []) /\
  exec (submitQuestion q0 blank) w_busy =
    typed q0 blank w_busy /\
  messages (exec (submitQuestion q0 blank) w_busy) = messages w_busy /\
  trace (exec (requestIndexing blank) w_busy) = trace w_busy.
Proof.
  split; [right; reflexivity |].
  split; [reflexivity |].
  split.
  - exact (proj1 (proj1 (blank_input_is_noop w_busy q0 blank)
                        (or_intror eq_refl))).
  - exact (proj1 (proj2 (proj2 (blank_input_is_noop w_busy q0 blank) eq_refl))).
Defined.

(** The trimming is [ChatInput]'s: [App.handleIndexRepository] itself only
    stops on the empty string, and [App.handleSendMessage] checks nothing. *)
Remark app_handlers_take_blank_input :
  trace (exec (App.handleIndexRepository blank) w0) =
    [SetIsProcessing true; indexPost blank] /\
  trace (exec (App.handleIndexRepository []) w0) = [] /\
  length (messages (exec (App.handleSendMessage [] []) w0)) = 1.
Proof. repeat split; reflexivity. Qed.

(* ------------------------------------------------------------------ *)
(** ** The busy flag *)

(** C2, as the handlers have it.  An accepted operation raises the flag
    once, before its request is posted, whatever the flag was: the
    handlers do not test it.  The settlement of a pending call, in
    whatever world it happens and on the success and the failure path
    alike, lowers the flag once, and the flag is down right after it.  So
    the flag reads false, true, false over an operation only if it was
    down at the start; in general it reads what it was, then true, then
    false. *)
Theorem busy_raised_then_lowered :
  forall (w later : World) (question repoUrl : JsString) (k : nat)
         (qo : Outcome (AxiosResponse QueryResponse.t))
         (io : Outcome (AxiosResponse Status.t)),
    (acceptsQuestion question repoUrl = true ->
       let w1 := run [SubmitQuestion question repoUrl] w in
       let w2 := run [SubmitQuestion question repoUrl;
                      Settle (length (pending w)) (QueryReply qo)] w in
       [isProcessing w; isProcessing w1; isProcessing w2] =
         [isProcessing w; true; false] /\
       exists effects : list Effect,
         trace w1 = trace w ++ effects /\
         filter flagOrCall effects =
           [SetIsProcessing true; queryPost question repoUrl]) /\
    (acceptsIndexing repoUrl = true ->
       let w1 := run [RequestIndexing repoUrl] w in
       let w2 := run [RequestIndexing repoUrl;
                      Settle (length (pending w)) (IndexReply io)] w in
       [isProcessing w; isProcessing w1; isProcessing w2] =
         [isProcessing w; true; false] /\
       exists effects : list Effect,
         trace w1 = trace w ++ effects /\
         filter flagOrCall effects =
           [SetIsProcessing true; indexPost repoUrl]) /\
    (nth_error (pending later) k = Some AwaitQuery ->
       let w' := step later (Settle k (QueryReply qo)) in
       isProcessing w' = false /\
       exists effects : list Effect,
         trace w' = trace later ++ effects /\
         filter flagOrCall effects = [SetIsProcessing false]) /\
    (forall url : JsString,
       nth_error (pending later) k = Some (AwaitIndex url) ->
       let w' := step later (Settle k (IndexReply io)) in
       isProcessing w' = false /\
       exists effects : list Effect,
         trace w' = trace later ++ effects /\
         filter flagOrCall effects = [SetIsProcessing false]).
Proof.
  intros w later question repoUrl k qo io.
  split; [|split; [|split]].
  - intros H w1 w2.
    assert (E1 : w1 = exec (submitQuestion question repoUrl) w) by reflexivity.
    unfold exec in E1. rewrite submitQuestion_eq, H in E1. cbn [snd] in E1.
    assert (E2 := run_question w question repoUrl qo H). fold w2 in E2.
    rewrite E2, E1. unfold settled. cbn [isProcessing trace].
    split; [reflexivity |]. eexists; split; reflexivity.
  - intros H w1 w2.
    assert (E1 : w1 = exec (requestIndexing repoUrl) w) by reflexivity.
    unfold exec in E1. rewrite requestIndexing_eq, H in E1. cbn [snd] in E1.
    assert (E2 := run_indexing w repoUrl io H). fold w2 in E2.
    rewrite E2, E1. unfold settled. cbn [isProcessing trace].
    split; [reflexivity |]. eexists; split; reflexivity.
  - intros H w'. subst w'. unfold step, exec. cbn [handle].
    rewrite settle_eq, H. cbn [outcomeOf].
    destruct qo; cbn [outcomeOfQuery snd settled without isProcessing trace];
      (split; [reflexivity |]; eexists; split; reflexivity).
  - intros url H w'. subst w'. unfold step, exec. cbn [handle].
    rewrite settle_eq, H. cbn [outcomeOf].
    destruct io; cbn [outcomeOfIndex snd settled without isProcessing trace];
      (split; [reflexivity |]; eexists; split; reflexivity).
Qed.

Lemma busy_raised_then_lowered_witness :
  acceptsQuestion q0 r0 = true /\
  [isProcessing w0;
   isProcessing (run [SubmitQuestion q0 r0] w0);
   isProcessing (run [SubmitQuestion q0 r0;
                      Settle (length (pending w0))
                             (QueryReply (Rejected networkError))] w0)] =
  [isProcessing w0; true; false] /\
  isProcessing w0 = false /\
  nth_error (pending w_two_pending) 0 = Some AwaitQuery /\
  isProcessing
    (step w_two_pending (Settle 0 (QueryReply (Rejected networkError))))
    = false.
Proof.
  pose proof (busy_raised_then_lowered w0 w_two_pending q0 r0 0
                (Rejected networkError) (Rejected networkError)) as H.
  split; [reflexivity |].
  split; [exact (proj1 (proj1 H eq_refl)) |].
  split; [reflexivity |]. split; [reflexivity |].
  exact (proj1 (proj1 (proj2 (proj2 H)) eq_refl)).
Defined.

(** C2 as the spec words it fails: an accepted question asked while a
    query is in flight finds the flag up, so the flag reads true, true,
    false over it and never goes from false to true; and when it has
    settled the flag is down although the first query is still pending. *)
Lemma busy_transition_counterexample :
  acceptsQuestion q1 r0 = true /\
  [isProcessing w_busy;
   isProcessing (run [SubmitQuestion q1 r0] w_busy);
   isProcessing (run [SubmitQuestion q1 r0;
                      Settle (length (pending w_busy))
                             (QueryReply (Rejected networkError))] w_busy)] =
  [true; true; false] /\
  pending (run [SubmitQuestion q1 r0;
                Settle (length (pending w_busy))
                       (QueryReply (Rejected networkError))] w_busy) =
  [AwaitQuery].
Proof. repeat split; reflexivity. Qed.

Lemma settle_lowers_flag (k : nat) (reply : Reply) (w : World) (p : Pending)
    (message : Draft.t) (before : list Effect) :
  nth_error (pending w) k = Some p ->
  outcomeOf p reply = Some (message, before) ->
  isProcessing (exec (settle k reply) w) = false.
Proof.
  intros Hp Ho. unfold exec. rewrite settle_eq, Hp, Ho. reflexivity.
Qed.

Lemma handle_completes (e : Event) (w : World) :
  completion (handle e) w = Normal tt.
Proof.
  unfold completion. destruct e as [q r | r | k reply]; cbn [handle].
  - rewrite submitQuestion_eq. now destruct (acceptsQuestion q r).
  - rewrite requestIndexing_eq. now destruct (acceptsIndexing r).
  - rewrite settle_eq. destruct (nth_error (pending w) k) as [p|]; [|reflexivity].
    destruct (outcomeOf p reply) as [[m b]|]; reflexivity.
Qed.

(** C1, as the handlers have it.  Neither handler reads [isProcessing]: a
    call made while the flag is up and passing the validation is carried
    out like any other.  [submitQuestion] appends the user Turn and posts
    the query, [requestIndexing] posts the indexing request, and a second
    call is pending.  What keeps the user from such a call is the render:
    while the flag is up both inputs are disabled and both buttons are
    loading. *)
Theorem busy_call_is_carried_out :
  forall (w : World) (question repoUrl : JsString),
    isProcessing w = true ->
    (acceptsQuestion question repoUrl = true ->
       let w' := exec (submitQuestion question repoUrl) w in
       exists userTurn : Message.t,
         messages w' = messages w ++ [userTurn] /\
         Message.sender userTurn = user /\
         Message.content userTurn = question /\
         trace w' = trace w ++
                    [SetMessages (messages w ++ [userTurn]);
                     SetIsProcessing true;
                     queryPost question repoUrl] /\
         pending w' = pending w ++ [AwaitQuery] /\
         isProcessing w' = true) /\
    (acceptsIndexing repoUrl = true ->
       let w' := exec (requestIndexing repoUrl) w in
       messages w' = messages w /\
       trace w' = trace w ++ [SetIsProcessing true; indexPost repoUrl] /\
       pending w' = pending w ++ [AwaitIndex repoUrl] /\
       isProcessing w' = true) /\
    ChatInput.isDisabled (ChatInput.repoUrl_input w) = true /\
    ChatInput.isDisabled (ChatInput.question_input w) = true /\
    ChatInput.isLoading (ChatInput.index_button w) = true /\
    ChatInput.isLoading (ChatInput.send_button w) = true.
Proof.
  intros w question repoUrl Hbusy. split; [|split].
  - intros H w'. subst w'. unfold exec. rewrite submitQuestion_eq, H.
    exists (turn (userMessage question) w). repeat split; reflexivity.
  - intros H w'. subst w'. unfold exec. rewrite requestIndexing_eq, H.
    repeat split; reflexivity.
  - unfold ChatInput.repoUrl_input, ChatInput.question_input,
      ChatInput.index_button, ChatInput.send_button.
    cbn [ChatInput.isDisabled ChatInput.isLoading]. rewrite Hbusy.
    repeat split; reflexivity.
Qed.

Lemma busy_call_is_carried_out_witness :
  isProcessing w_busy = true /\
  acceptsIndexing r0 = true /\
  trace (exec (requestIndexing r0) w_busy) =
    trace w_busy ++ [SetIsProcessing true; indexPost r0] /\
  ChatInput.isLoading (ChatInput.send_button w_busy) = true.
Proof.
  split; [reflexivity |]. split; [reflexivity |].
  pose proof (busy_call_is_carried_out w_busy q0 r0 eq_refl) as H.
  split.
  - exact (proj1 (proj2 (proj1 (proj2 H) eq_refl))).
  - exact (proj2 (proj2 (proj2 (proj2 (proj2 H))))).
Defined.

(** C1 as the spec words it fails: with a query in flight, a second
    [submitQuestion] appends its user Turn and posts its query, and a
    [requestIndexing] posts its request. *)
Lemma busy_call_rejected_counterexample :
  isProcessing w_busy = true /\
  length (messages w_busy) = 1 /\
  length (messages (exec (submitQuestion q0 r0) w_busy)) = 2 /\
  messages (exec (submitQuestion q0 r0) w_busy) <> messages w_busy /\
  trace (exec (submitQuestion q0 r0) w_busy) =
    trace w_busy ++
    [SetMessages (messages (exec (submitQuestion q0 r0) w_busy));
     SetIsProcessing true; queryPost q0 r0] /\
  trace (exec (requestIndexing r0) w_busy) =
    trace w_busy ++ [SetIsProcessing true; indexPost r0].
Proof.
  repeat split; try reflexivity.
  intros H. apply (f_equal (@length _)) in H. discriminate H.
Qed.

(* ------------------------------------------------------------------ *)
(** ** The repository of the conversation *)

Lemma settle_input (k : nat) (reply : Reply) (w : World) :
  input (exec (settle k reply) w) = input w.
Proof.
  unfold exec. rewrite settle_eq.
  destruct (nth_error (pending w) k) as [p|]; [|reflexivity].
  destruct (outcomeOf p reply) as [[m b]|]; reflexivity.
Qed.

(* ------------------------------------------------------------------ *)
(** ** The transcript *)

Lemma acceptedQuestions_cons (e : Event) (events : list Event) :
  acceptedQuestions (e :: events) =
  acceptedQuestions [e] + acceptedQuestions events.
Proof.
  unfold acceptedQuestions. cbn [filter].
  destruct e as [q r | r | k reply]; try reflexivity.
  now destruct (acceptsQuestion q r).
Qed.

Lemma acceptedIndexings_cons (e : Event) (events : list Event) :
  acceptedIndexings (e :: events) =
  acceptedIndexings [e] + acceptedIndexings events.
Proof.
  unfold acceptedIndexings. cbn [filter].
  destruct e as [q r | r | k reply]; try reflexivity.
  now destruct (acceptsIndexing r).
Qed.

(** One event only appends, and every Turn it does not append yet is owed
    by a pending call. *)
Lemma step_appends (w : World) (e : Event) :
  exists added : list Message.t,
    messages (step w e) = messages w ++ added /\
    length added + length (pending (step w e)) =
    length (pending w) + 2 * acceptedQuestions [e] + acceptedIndexings [e].
Proof.
  unfold step, exec. destruct e as [q r | r | k reply]; cbn [handle].
  - rewrite submitQuestion_eq. unfold acceptedQuestions, acceptedIndexings.
    cbn [filter]. destruct (acceptsQuestion q r); cbn [snd messages pending].
    + eexists; split; [reflexivity |]. rewrite length_app. cbn. lia.
    + exists []. rewrite app_nil_r. split; [reflexivity | cbn; lia].
  - rewrite requestIndexing_eq. unfold acceptedQuestions, acceptedIndexings.
    cbn [filter]. destruct (acceptsIndexing r); cbn [snd messages pending].
    + exists []. rewrite app_nil_r, length_app. split; [reflexivity | cbn; lia].
    + exists []. rewrite app_nil_r. split; [reflexivity | cbn; lia].
  - rewrite settle_eq.
    destruct (nth_error (pending w) k) as [p|] eqn:Hp.
    + destruct (outcomeOf p reply) as [[m b]|]; cbn [snd].
      * unfold settled, without. cbn [messages pending].
        eexists; split; [reflexivity |].
        pose proof (remove_nth_length _ _ Hp). cbn. lia.
      * exists []. rewrite app_nil_r. split; [reflexivity | cbn; lia].
    + exists []. rewrite app_nil_r. split; [reflexivity | cbn; lia].
Qed.

Lemma run_cons (e : Event) (events : list Event) (w : World) :
  run (e :: events) w = run events (step w e).
Proof. reflexivity. Qed.

Lemma run_appends (events : list Event) (w : World) :
  exists added : list Message.t,
    messages (run events w) = messages w ++ added /\
    length added + length (pending (run events w)) =
    length (pending w) + 2 * acceptedQuestions events + acceptedIndexings events.
Proof.
  revert w; induction events as [|e events IH]; intros w.
  - exists []. rewrite app_nil_r. split; [reflexivity | cbn; lia].
  - rewrite run_cons.
    destruct (step_appends w e) as (a1 & M1 & L1).
    destruct (IH (step w e)) as (a2 & M2 & L2).
    exists (a1 ++ a2). rewrite M2, M1, <- app_assoc. split; [reflexivity |].
    rewrite acceptedQuestions_cons, acceptedIndexings_cons, length_app. lia.
Qed.

Lemma run_app (events later : list Event) (w : World) :
  run (events ++ later) w = run later (run events w).
Proof. apply fold_left_app. Qed.

(** C7. Along any sequence of events the transcript only grows at its end:
    what it held after a prefix of the events is still there, unchanged
    and in the same order, after the whole sequence, so its length never
    decreases.  Started from the empty transcript, once no call is
    pending its length is twice the number of accepted questions plus the
    number of accepted indexing requests. *)
Theorem transcript_append_only :
  forall (clk : nat -> Z) (w : World) (events later : list Event),
    (exists added : list Message.t,
       messages (run (events ++ later) w) = messages (run events w) ++ added) /\
    length (messages (run events w)) <=
      length (messages (run (events ++ later) w)) /\
    (pending (run events (initial clk)) = [] ->
     length (messages (run events (initial clk))) =
       2 * acceptedQuestions events + acceptedIndexings events).
Proof.
  intros clk w events later.
  destruct (run_appends later (run events w)) as (added & Hm & _).
  rewrite run_app. split; [|split].
  - now exists added.
  - rewrite Hm, length_app. lia.
  - intros Hp. destruct (run_appends events (initial clk)) as (a & Ha & Hl).
    rewrite Ha, Hp in *. cbn in Hl |- *. lia.
Qed.

Lemma transcript_append_only_witness :
  pending (run [SubmitQuestion q0 r0;
                RequestIndexing r0;
                SubmitQuestion blank r0;
                Settle 1 (IndexReply (Rejected networkError));
                Settle 0 (QueryReply (Resolved (mkResponse response0)))]
               (initial clock0)) = [] /\
  length (messages
            (run [SubmitQuestion q0 r0;
                  RequestIndexing r0;
                  SubmitQuestion blank r0;
                  Settle 1 (IndexReply (Rejected networkError));
                  Settle 0 (QueryReply (Resolved (mkResponse response0)))]
                 (initial clock0))) = 3 /\
  length (messages
            (run [SubmitQuestion q0 r0;
                  RequestIndexing r0;
                  SubmitQuestion blank r0;
                  Settle 1 (IndexReply (Rejected networkError));
                  Settle 0 (QueryReply (Resolved (mkResponse response0)))]
                 (initial clock0))) =
  2 * acceptedQuestions
        [SubmitQuestion q0 r0;
         RequestIndexing r0;
         SubmitQuestion blank r0;
         Settle 1 (IndexReply (Rejected networkError));
         Settle 0 (QueryReply (Resolved (mkResponse response0)))] +
  acceptedIndexings
        [SubmitQuestion q0 r0;
         RequestIndexing r0;
         SubmitQuestion blank r0;
         Settle 1 (IndexReply (Rejected networkError));
         Settle 0 (QueryReply (Resolved (mkResponse response0)))].
Proof.
  split; [reflexivity |]. split; [reflexivity |].
  exact (proj2 (proj2 (transcript_append_only clock0 w0
    [SubmitQuestion q0 r0;
     RequestIndexing r0;
     SubmitQuestion blank r0;
     Settle 1 (IndexReply (Rejected networkError));
     Settle 0 (QueryReply (Resolved (mkResponse response0)))] [])) eq_refl).
Defined.

(* ------------------------------------------------------------------ *)
(** ** The ids of the Turns *)

Lemma lit_inj (s t : string) : lit s = lit t -> s = t.
Proof.
  unfold lit. intros H.
  apply (f_equal (map ascii_of_N)) in H. rewrite !map_map in H.
  rewrite (map_ext _ (fun a => a)) in H by apply ascii_N_embedding.
  rewrite (map_ext (fun x => ascii_of_N (N_of_ascii x)) (fun a => a)) in H
    by apply ascii_N_embedding.
  rewrite !map_id in H.
  apply (f_equal string_of_list_ascii) in H.
  now rewrite !string_of_list_ascii_of_string in H.
Qed.

Lemma to_int_proper (z : Z) :
  Z.to_int z <> Decimal.Pos Decimal.Nil /\ Z.to_int z <> Decimal.Neg Decimal.Nil.
Proof.
  destruct z as [|p|p]; cbn; split; try discriminate;
    intros [= H]; exact (Unsigned.to_uint_nonnil p H).
Qed.

Lemma toString_inj (a b : Z) : toString a = toString b -> a = b.
Proof.
  unfold toString. intros H. apply lit_inj in H.
  apply (f_equal NilZero.int_of_string) in H.
  destruct (to_int_proper a) as [A1 A2], (to_int_proper b) as [B1 B2].
  rewrite !NilZero.isi in H by assumption.
  injection H as H. now apply DecimalZ.to_int_inj.
Qed.

Lemma ids_kept (w w' : World) :
  clock w' = clock w -> reads w' = reads w -> messages w' = messages w ->
  ids_from_clock w -> ids_from_clock w'.
Proof.
  intros Hc Hr Hm (l & E & N & F). exists l. now rewrite Hc, Hr, Hm.
Qed.

Lemma ids_appended (w w' : World) (message : Draft.t) :
  clock w' = clock w -> reads w' = S (S (reads w)) ->
  messages w' = messages w ++ [turn message w] ->
  ids_from_clock w -> ids_from_clock w'.
Proof.
  intros Hc Hr Hm (l & E & N & F). exists (l ++ [reads w]).
  rewrite Hc, Hr, Hm, !map_app, E. repeat split.
  - apply NoDup_app; [assumption | repeat constructor; intros [] |].
    intros i Hi [<- | []]. rewrite Forall_forall in F.
    specialize (F _ Hi). lia.
  - apply Forall_app; split.
    + eapply Forall_impl; [|exact F]. cbn; intros; lia.
    + repeat constructor.
Qed.

Lemma step_ids (w : World) (e : Event) :
  ids_from_clock w -> ids_from_clock (step w e).
Proof.
  intros I. unfold step, exec. destruct e as [q r | r | k reply]; cbn [handle].
  - rewrite submitQuestion_eq. destruct (acceptsQuestion q r); cbn [snd].
    + eapply ids_appended; [| | | exact I]; reflexivity.
    + eapply ids_kept; [| | | exact I]; reflexivity.
  - rewrite requestIndexing_eq.
    destruct (acceptsIndexing r); cbn [snd];
      (eapply ids_kept; [| | | exact I]; reflexivity).
  - rewrite settle_eq.
    destruct (nth_error (pending w) k) as [p|]; [|exact I].
    destruct (outcomeOf p reply) as [[m b]|]; [|exact I]. cbn [snd].
    eapply (ids_appended (w := without k w)); try reflexivity.
    eapply ids_kept; [| | | exact I]; reflexivity.
Qed.

Lemma step_clock (w : World) (e : Event) : clock (step w e) = clock w.
Proof.
  unfold step, exec. destruct e as [q r | r | k reply]; cbn [handle].
  - rewrite submitQuestion_eq. now destruct (acceptsQuestion q r).
  - rewrite requestIndexing_eq. now destruct (acceptsIndexing r).
  - rewrite settle_eq.
    destruct (nth_error (pending w) k) as [p|]; [|reflexivity].
    destruct (outcomeOf p reply) as [[m b]|]; reflexivity.
Qed.

Lemma run_ids (events : list Event) (w : World) :
  ids_from_clock w ->
  ids_from_clock (run events w) /\ clock (run events w) = clock w.
Proof.
  revert w; induction events as [|e events IH]; intros w I.
  - now split.
  - rewrite run_cons. destruct (IH _ (step_ids e I)) as [I' C].
    split; [exact I' | now rewrite C, step_clock].
Qed.

(** X1. When no two readings of the clock agree, the ids of the Turns are
    pairwise distinct. *)
Lemma ids_distinct_on_a_ticking_clock (clk : nat -> Z) (events : list Event) :
  (forall i j, clk i = clk j -> i = j) ->
  NoDup (map Message.id (messages (run events (initial clk)))).
Proof.
  intros Hinj.
  assert (I0 : ids_from_clock (initial clk)).
  { exists []. repeat split; constructor. }
  destruct (run_ids events I0) as [(l & E & N & _) C].
  rewrite E, C. cbn [clock initial].
  apply Injective_map_NoDup; [|exact N].
  intros i j H. apply Hinj. now apply toString_inj.
Qed.

(** C9, at two Turns created within one millisecond.  [addMessage] takes
    [Date.now().toString()] as id: a query that fails before the clock
    moves leaves a user Turn and a bot Turn with one and the same id. *)
Theorem turn_ids_collide :
  map Message.id
      (messages (run [SubmitQuestion q0 r0;
                      Settle 0 (QueryReply (Rejected networkError))]
                     (initial clock_still))) =
    [lit "1700000000000"; lit "1700000000000"] /\
  map Message.sender
      (messages (run [SubmitQuestion q0 r0;
                      Settle 0 (QueryReply (Rejected networkError))]
                     (initial clock_still))) = [user; bot] /\
  ~ NoDup (map Message.id
             (messages (run [SubmitQuestion q0 r0;
                             Settle 0 (QueryReply (Rejected networkError))]
                            (initial clock_still)))).
Proof.
  split; [reflexivity |]. split; [reflexivity |].
  intros H. inversion H as [|x l Hx _]. apply Hx. now left.
Qed.

(* ------------------------------------------------------------------ *)
(** ** More on the handlers: what an event appends and logs *)

(** An event appends nothing, or one Turn of the five kinds, stamped
    with the next two readings of the clock. *)
Lemma step_shape (w : World) (e : Event) :
  clock (step w e) = clock w /\
  ((messages (step w e) = messages w /\ reads (step w e) = reads w) \/
   (exists d : Draft.t,
      Produced d /\
      messages (step w e) = messages w ++ [turn d w] /\
      reads (step w e) = S (S (reads w)))).
Proof.
  split; [apply step_clock |].
  unfold step, exec. destruct e as [q r | r | k reply]; cbn [handle].
  - rewrite submitQuestion_eq. destruct (acceptsQuestion q r); cbn [snd].
    + right. exists (userMessage q). repeat split. constructor.
    + now left.
  - rewrite requestIndexing_eq. destruct (acceptsIndexing r); now left.
  - rewrite settle_eq.
    destruct (nth_error (pending w) k) as [p|]; [|now left].
    destruct p, reply as [o|o]; cbn [outcomeOf]; try (now left);
      destruct o; cbn [outcomeOfQuery outcomeOfIndex snd];
      right; eexists; (split; [constructor | split; reflexivity]).
Qed.

Lemma ids_distinct_on_a_ticking_clock_witness :
  (forall i j, clock0 i = clock0 j -> i = j) /\
  NoDup (map Message.id
           (messages (run [SubmitQuestion q0 r0;
                           Settle 0 (QueryReply (Rejected networkError))]
                          (initial clock0)))).
Proof.
  assert (H : forall i j, clock0 i = clock0 j -> i = j)
    by (unfold clock0; intros i j E; lia).
  split; [exact H |].
  exact (ids_distinct_on_a_ticking_clock clock0
           [SubmitQuestion q0 r0;
            Settle 0 (QueryReply (Rejected networkError))] H).
Defined.

Lemma sorted_snoc (l : list Z) (x : Z) :
  StronglySorted Z.le l -> Forall (fun y => (y <= x)%Z) l ->
  StronglySorted Z.le (l ++ [x]).
Proof.
  induction 1 as [|a l S IH F]; intros B; cbn.
  - repeat constructor.
  - inversion B as [|? ? Ba Bl]; subst. constructor.
    + now apply IH.
    + apply Forall_app; split; [assumption | now repeat constructor].
Qed.

Lemma run_chronological (clk : nat -> Z) (events : list Event) (w : World) :
  monotone clk -> clock w = clk ->
  StronglySorted Z.le (map Message.timestamp (messages w)) -> stamped w ->
  StronglySorted Z.le (map Message.timestamp (messages (run events w))) /\
  stamped (run events w) /\ clock (run events w) = clk.
Proof.
  intros Hm. revert w; induction events as [|e events IH]; intros w Hc Hs Hi.
  - now repeat split.
  - rewrite run_cons.
    destruct (step_shape w e) as [C [[M R] | (d & _ & M & R)]];
      apply IH.
    + congruence.
    + now rewrite M.
    + unfold stamped. now rewrite M, R, C.
    + congruence.
    + rewrite M, map_app. apply sorted_snoc; [assumption |].
      apply Forall_map. eapply Forall_impl; [|exact Hi].
      intros m (i & Li & _ & ->). cbn [turn Message.timestamp].
      rewrite Hc. apply Hm. lia.
    + unfold stamped. rewrite M, R, C. apply Forall_app; split.
      * eapply Forall_impl; [|exact Hi].
        intros m (i & Li & E1 & E2). exists i. repeat split; auto.
      * repeat constructor. exists (reads w). repeat split. lia.
Qed.

(** X2. On a clock that never runs backwards the transcript is in
    chronological order: the timestamps never decrease along it, and the
    id of a Turn is the decimal numeral of a time not later than its
    timestamp. *)
Theorem transcript_is_chronological :
  forall (clk : nat -> Z) (events : list Event),
    monotone clk ->
    let w := run events (initial clk) in
    StronglySorted Z.le (map Message.timestamp (messages w)) /\
    Forall (fun m => exists t : Z,
                Message.id m = toString t /\ (t <= Message.timestamp m)%Z)
           (messages w).
Proof.
  intros clk events Hm w.
  destruct (@run_chronological clk events (initial clk) Hm eq_refl)
    as (S & I & C).
  - constructor.
  - constructor.
  - split; [exact S |]. eapply Forall_impl; [|exact I].
    intros m (i & _ & E1 & E2). rewrite C in E1, E2.
    exists (clk i). rewrite E2. split; [assumption | apply Hm; lia].
Qed.

Lemma transcript_is_chronological_witness :
  monotone clock0 /\
  StronglySorted Z.le
    (map Message.timestamp
       (messages (run [SubmitQuestion q0 r0;
                       Settle 0 (QueryReply (Rejected networkError))]
                      (initial clock0)))).
Proof.
  assert (H : monotone clock0) by (intros i j L; unfold clock0; lia).
  split; [exact H |].
  exact (proj1 (transcript_is_chronological
                  [SubmitQuestion q0 r0;
                   Settle 0 (QueryReply (Rejected networkError))] H)).
Defined.

(* ------------------------------------------------------------------ *)
(** ** The requests that leave *)

Lemma truthy_true (s : JsString) : truthy s = true -> s <> [].
Proof. now destruct s. Qed.

(** What one event logs: only well formed requests, and one request
    exactly when it is an accepted operation. *)
Lemma step_trace (w : World) (e : Event) :
  exists effects : list Effect,
    trace (step w e) = trace w ++ effects /\
    Forall wellFormed effects /\
    length (filter isPost effects) =
      acceptedQuestions [e] + acceptedIndexings [e].
Proof.
  unfold step, exec, acceptedQuestions, acceptedIndexings.
  destruct e as [q r | r | k reply]; cbn [handle filter].
  - rewrite submitQuestion_eq. destruct (acceptsQuestion q r) eqn:A; cbn [snd trace].
    + eexists; split; [reflexivity |]. split; [|reflexivity].
      unfold acceptsQuestion in A. apply andb_prop in A as [A1 A2].
      repeat constructor; cbn; now apply truthy_true.
    + exists []. rewrite app_nil_r. now repeat split.
  - rewrite requestIndexing_eq. destruct (acceptsIndexing r) eqn:A; cbn [snd trace].
    + eexists; split; [reflexivity |]. split; [|reflexivity].
      unfold acceptsIndexing in A. apply andb_prop in A as [A1 A2].
      repeat constructor; cbn; now apply truthy_true.
    + exists []. rewrite app_nil_r. now repeat split.
  - rewrite settle_eq.
    destruct (nth_error (pending w) k) as [p|];
      [|exists []; rewrite app_nil_r; now repeat split].
    destruct p, reply as [o|o]; cbn [outcomeOf];
      try (exists []; rewrite app_nil_r; now repeat split);
      destruct o; cbn [outcomeOfQuery outcomeOfIndex snd settled trace];
      (eexists; split; [reflexivity |]; split;
       [repeat constructor | reflexivity]).
Qed.

Lemma run_trace (events : list Event) (w : World) :
  exists effects : list Effect,
    trace (run events w) = trace w ++ effects /\
    Forall wellFormed effects /\
    length (filter isPost effects) =
      acceptedQuestions events + acceptedIndexings events.
Proof.
  revert w; induction events as [|e events IH]; intros w.
  - exists []. rewrite app_nil_r. now repeat split.
  - rewrite run_cons.
    destruct (step_trace w e) as (d1 & T1 & W1 & P1).
    destruct (IH (step w e)) as (d2 & T2 & W2 & P2).
    exists (d1 ++ d2). rewrite T2, T1, <- app_assoc. split; [reflexivity |].
    split; [now apply Forall_app |].
    rewrite filter_app, length_app, P1, P2.
    rewrite (acceptedQuestions_cons e events), (acceptedIndexings_cons e events).
    lia.
Qed.

(** X3. Whatever the user and the network do, every request the application
    posts is well formed: a query goes to [/api/query] with a question and
    a repository URL that are not blank and with [top_k] 3, an indexing
    request goes to [/api/index] with a repository URL that is not blank
    and without branch. *)
Theorem requests_are_well_formed :
  forall (clk : nat -> Z) (events : list Event),
    Forall wellFormed (trace (run events (initial clk))).
Proof.
  intros clk events.
  destruct (run_trace events (initial clk)) as (d & T & W & _).
  now rewrite T.
Qed.

(** X4. Requests are posted once per accepted operation and never again: a
    sequence of events posts as many requests as it holds accepted
    operations, and a settlement, a failure included, posts nothing (no
    retry). *)
Theorem one_request_per_accepted_operation :
  forall (w : World) (events : list Event) (k : nat) (reply : Reply),
    length (filter isPost (trace (run events w))) =
      length (filter isPost (trace w)) +
      acceptedQuestions events + acceptedIndexings events /\
    filter isPost (trace (step w (Settle k reply))) = filter isPost (trace w).
Proof.
  intros w events k reply. split.
  - destruct (run_trace events w) as (d & T & _ & P).
    rewrite T, filter_app, length_app. lia.
  - destruct (step_trace w (Settle k reply)) as (d & T & _ & P).
    rewrite T, filter_app. cbn in P.
    destruct (filter isPost d); [apply app_nil_r | discriminate].
Qed.

(* ------------------------------------------------------------------ *)
(** ** The send button, the Enter key and the validity flags *)

Lemma click_send_eq (w : World) :
  ChatInput.handleSendMessage App.handleSendMessage w =
  if acceptsQuestion (ChatInput.message w) (ChatInput.repoUrl w) then
    (Normal tt,
     {| messages := messages w ++ [turn (userMessage (ChatInput.message w)) w];
        isProcessing := true;
        input := ChatInput_state.mk [] (ChatInput.repoUrl w);
        pending := pending w ++ [AwaitQuery];
        trace := trace w ++
                 [SetMessages
                    (messages w ++ [turn (userMessage (ChatInput.message w)) w]);
                  SetIsProcessing true;
                  queryPost (ChatInput.message w) (ChatInput.repoUrl w)];
        clock := clock w; reads := S (S (reads w)) |})
  else (Normal tt, w).
Proof.
  unfold acceptsQuestion, ChatInput.handleSendMessage, bind.
  cbn -[App.handleSendMessage trim truthy].
  destruct (truthy (trim (ChatInput.message w)) &&
            truthy (trim (ChatInput.repoUrl w))); [|reflexivity].
  rewrite handleSendMessage_eq. reflexivity.
Qed.

Lemma click_index_eq (w : World) :
  ChatInput.handleIndexClick App.handleIndexRepository w =
  if acceptsIndexing (ChatInput.repoUrl w) then
    (Normal tt,
     {| messages := messages w; isProcessing := true; input := input w;
        pending := pending w ++ [AwaitIndex (ChatInput.repoUrl w)];
        trace := trace w ++
                 [SetIsProcessing true; indexPost (ChatInput.repoUrl w)];
        clock := clock w; reads := reads w |})
  else (Normal tt, w).
Proof.
  unfold acceptsIndexing, ChatInput.handleIndexClick, bind.
  cbn -[App.handleIndexRepository trim truthy].
  destruct (truthy (trim (ChatInput.repoUrl w))); [|reflexivity].
  rewrite handleIndexRepository_eq.
  destruct (truthy (ChatInput.repoUrl w)); reflexivity.
Qed.

(** X5. After a send the question field is empty, so the Send handler of
    the next render does nothing until a question is typed.  The handler
    of the earlier render is a closure over the old values of the fields:
    run once more, it sends the same question again (a second user Turn,
    a second request). *)
Theorem send_again_needs_a_new_question :
  forall w : World,
    let send := ChatInput.handleSendMessage App.handleSendMessage in
    let stale :=
      ChatInput.handleSendMessage_closure
        (ChatInput.message w) (ChatInput.repoUrl w) App.handleSendMessage in
    send w = stale w /\
    send (exec send w) = (Normal tt, exec send w) /\
    (acceptsQuestion (ChatInput.message w) (ChatInput.repoUrl w) = true ->
       exists again : Message.t,
         Message.sender again = user /\
         Message.content again = ChatInput.message w /\
         messages (exec stale (exec send w)) =
           messages (exec send w) ++ [again] /\
         trace (exec stale (exec send w)) =
           trace (exec send w) ++
           [SetMessages (messages (exec send w) ++ [again]);
            SetIsProcessing true;
            queryPost (ChatInput.message w) (ChatInput.repoUrl w)]).
Proof.
  intros w send stale. split; [reflexivity |].
  assert (E : exec send w =
              snd (ChatInput.handleSendMessage App.handleSendMessage w))
    by reflexivity.
  rewrite click_send_eq in E. subst stale.
  destruct (acceptsQuestion (ChatInput.message w) (ChatInput.repoUrl w)) eqn:A;
    cbn [snd] in E; rewrite E; subst send; split.
  - rewrite click_send_eq. reflexivity.
  - intros _. unfold ChatInput.handleSendMessage_closure, exec.
    unfold acceptsQuestion in A. rewrite A. unfold bind.
    rewrite handleSendMessage_eq. cbn [snd messages trace].
    eexists. split; [|split; [|split]].
    3: reflexivity. 3: reflexivity. all: reflexivity.
  - rewrite click_send_eq, A. reflexivity.
  - discriminate.
Qed.

Lemma send_again_needs_a_new_question_witness :
  acceptsQuestion (ChatInput.message (typed q0 r0 w0))
                  (ChatInput.repoUrl (typed q0 r0 w0)) = true /\
  ChatInput.handleSendMessage App.handleSendMessage
    (exec (ChatInput.handleSendMessage App.handleSendMessage)
          (typed q0 r0 w0)) =
  (Normal tt,
   exec (ChatInput.handleSendMessage App.handleSendMessage) (typed q0 r0 w0)) /\
  exists again : Message.t,
    Message.sender again = user /\
    Message.content again = ChatInput.message (typed q0 r0 w0) /\
    messages
      (exec (ChatInput.handleSendMessage_closure
               (ChatInput.message (typed q0 r0 w0))
               (ChatInput.repoUrl (typed q0 r0 w0)) App.handleSendMessage)
            (exec (ChatInput.handleSendMessage App.handleSendMessage)
                  (typed q0 r0 w0))) =
      messages (exec (ChatInput.handleSendMessage App.handleSendMessage)
                     (typed q0 r0 w0)) ++ [again] /\
    trace
      (exec (ChatInput.handleSendMessage_closure
               (ChatInput.message (typed q0 r0 w0))
               (ChatInput.repoUrl (typed q0 r0 w0)) App.handleSendMessage)
            (exec (ChatInput.handleSendMessage App.handleSendMessage)
                  (typed q0 r0 w0))) =
      trace (exec (ChatInput.handleSendMessage App.handleSendMessage)
                  (typed q0 r0 w0)) ++
      [SetMessages
         (messages (exec (ChatInput.handleSendMessage App.handleSendMessage)
                         (typed q0 r0 w0)) ++ [again]);
       SetIsProcessing true;
       queryPost (ChatInput.message (typed q0 r0 w0))
                 (ChatInput.repoUrl (typed q0 r0 w0))].
Proof.
  pose proof (send_again_needs_a_new_question (typed q0 r0 w0)) as H.
  split; [reflexivity |].
  split; [exact (proj1 (proj2 H)) | exact (proj2 (proj2 H) eq_refl)].
Defined.

Lemma length_truthy (s : JsString) : (0 <? length s) = truthy s.
Proof. now destruct s. Qed.

(** X6. The validity flags of the render agree with the guards of the
    handlers: when [isFormValid] is false a click on Send changes nothing,
    when it is true the click appends the user Turn and posts the query;
    when [isRepoUrlValid] is false a click on Index changes nothing, when
    it is true the click posts the indexing request. *)
Theorem validity_flags_match_guards :
  forall w : World,
    (ChatInput.isFormValid w = false ->
       ChatInput.handleSendMessage App.handleSendMessage w = (Normal tt, w)) /\
    (ChatInput.isFormValid w = true ->
       exists userTurn : Message.t,
         messages (exec (ChatInput.handleSendMessage App.handleSendMessage) w)
           = messages w ++ [userTurn] /\
         Message.content userTurn = ChatInput.message w /\
         trace (exec (ChatInput.handleSendMessage App.handleSendMessage) w)
           = trace w ++
             [SetMessages (messages w ++ [userTurn]); SetIsProcessing true;
              queryPost (ChatInput.message w) (ChatInput.repoUrl w)]) /\
    (ChatInput.isRepoUrlValid w = false ->
       ChatInput.handleIndexClick App.handleIndexRepository w = (Normal tt, w)) /\
    (ChatInput.isRepoUrlValid w = true ->
       trace (exec (ChatInput.handleIndexClick App.handleIndexRepository) w)
         = trace w ++ [SetIsProcessing true; indexPost (ChatInput.repoUrl w)]).
Proof.
  intros w.
  assert (F : ChatInput.isFormValid w =
              acceptsQuestion (ChatInput.message w) (ChatInput.repoUrl w)).
  { unfold ChatInput.isFormValid, acceptsQuestion. now rewrite !length_truthy. }
  assert (R : ChatInput.isRepoUrlValid w = acceptsIndexing (ChatInput.repoUrl w)).
  { unfold ChatInput.isRepoUrlValid.
    now rewrite length_truthy, acceptsIndexing_trim. }
  rewrite F, R. unfold exec. rewrite click_send_eq, click_index_eq.
  repeat split; intros ->; try reflexivity.
  eexists; repeat split.
Qed.

Lemma validity_flags_match_guards_witness :
  ChatInput.isFormValid (typed blank r0 w0) = false /\
  ChatInput.handleSendMessage App.handleSendMessage (typed blank r0 w0)
    = (Normal tt, typed blank r0 w0) /\
  ChatInput.isRepoUrlValid (typed blank r0 w0) = true /\
  trace (exec (ChatInput.handleIndexClick App.handleIndexRepository)
              (typed blank r0 w0))
    = trace (typed blank r0 w0) ++
      [SetIsProcessing true; indexPost (ChatInput.repoUrl (typed blank r0 w0))].
Proof.
  pose proof (validity_flags_match_guards (typed blank r0 w0)) as H.
  split; [reflexivity |].
  split; [exact (proj1 H eq_refl) |].
  split; [reflexivity |].
  exact (proj2 (proj2 (proj2 H)) eq_refl).
Defined.

Lemma strictEquals_spec (a b : JsString) :
  ChatInput.strictEquals a b = true <-> a = b.
Proof.
  revert b; induction a as [|x a IH]; intros [|y b]; cbn; try easy.
  rewrite andb_true_iff, N.eqb_eq, IH. split.
  - now intros [-> ->].
  - now intros [= -> ->].
Qed.

(** X7. Enter in the question field is a click on Send: with the key Enter
    and Shift up, [handleKeyDown] prevents the default action and leaves
    the world exactly as [handleSendMessage] does; with Shift down, or any
    other key, it does nothing at all. *)
Theorem enter_is_send :
  forall (w : World) (e : ChatInput.KeyboardEvent),
    (ChatInput.key e = lit "Enter" -> ChatInput.shiftKey e = false ->
       ChatInput.handleKeyDown App.handleSendMessage e w =
       (Normal true,
        exec (ChatInput.handleSendMessage App.handleSendMessage) w)) /\
    (ChatInput.key e <> lit "Enter" \/ ChatInput.shiftKey e = true ->
       ChatInput.handleKeyDown App.handleSendMessage e w = (Normal false, w)).
Proof.
  intros w e. unfold ChatInput.handleKeyDown. split.
  - intros K S. rewrite (proj2 (strictEquals_spec _ _) K), S.
    cbn [andb negb]. unfold bind, exec. rewrite click_send_eq.
    now destruct (acceptsQuestion _ _).
  - intros [K | S].
    + destruct (ChatInput.strictEquals (ChatInput.key e) (lit "Enter")) eqn:E;
        [|reflexivity].
      now apply strictEquals_spec in E.
    + rewrite S, andb_false_r. reflexivity.
Qed.

Lemma enter_is_send_witness :
  ChatInput.handleKeyDown App.handleSendMessage
    (ChatInput.mkKey (lit "Enter") false) (typed q0 r0 w0) =
  (Normal true,
   exec (ChatInput.handleSendMessage App.handleSendMessage) (typed q0 r0 w0)) /\
  ChatInput.handleKeyDown App.handleSendMessage
    (ChatInput.mkKey (lit "Enter") true) (typed q0 r0 w0) =
  (Normal false, typed q0 r0 w0).
Proof.
  split.
  - exact (proj1 (enter_is_send (typed q0 r0 w0)
                    (ChatInput.mkKey (lit "Enter") false)) eq_refl eq_refl).
  - exact (proj2 (enter_is_send (typed q0 r0 w0)
                    (ChatInput.mkKey (lit "Enter") true)) (or_intror eq_refl)).
Defined.

(* ------------------------------------------------------------------ *)
(** ** Exceptions and the flag *)

Lemma ui_handle_completes (e : UI.Event) (w : World) :
  completion (UI.handle e) w = Normal tt.
Proof.
  unfold completion.
  destruct e as [v | e | | v | e | | k reply]; cbn [UI.handle];
    unfold UI.dispatch.
  - now destruct (UI.enabled _).
  - now destruct (UI.enabled _).
  - destruct (UI.enabled _); [|reflexivity].
    rewrite click_index_eq. now destruct (acceptsIndexing _).
  - now destruct (UI.enabled _).
  - destruct (UI.enabled _); [|reflexivity].
    unfold bind, ChatInput.handleKeyDown.
    destruct (ChatInput.strictEquals _ _ && negb _); [|reflexivity].
    unfold bind. rewrite click_send_eq. now destruct (acceptsQuestion _ _).
  - destruct (UI.enabled _); [|reflexivity].
    rewrite click_send_eq. now destruct (acceptsQuestion _ _).
  - rewrite settle_eq. destruct (nth_error (pending w) k) as [p|]; [|reflexivity].
    destruct (outcomeOf p reply) as [[m b]|]; reflexivity.
Qed.

(** X8. No handler ever throws: every operation, every event of the user
    on the controls and every settlement of a call, a rejected one
    included, completes normally in every world, so no promise of a
    handler is ever rejected. *)
Theorem no_handler_throws :
  forall (w : World),
    (forall e : Event, completion (handle e) w = Normal tt) /\
    (forall e : UI.Event, completion (UI.handle e) w = Normal tt) /\
    (forall o, completion (App.handleSendMessage_await o) w = Normal tt) /\
    (forall repoUrl o,
        completion (App.handleIndexRepository_await repoUrl o) w = Normal tt).
Proof.
  intros w. split; [|split; [|split]].
  - intros e. unfold completion. destruct e as [q r | r | k reply]; cbn [handle].
    + rewrite submitQuestion_eq. now destruct (acceptsQuestion q r).
    + rewrite requestIndexing_eq. now destruct (acceptsIndexing r).
    + rewrite settle_eq.
      destruct (nth_error (pending w) k) as [p|]; [|reflexivity].
      destruct (outcomeOf p reply) as [[m b]|]; reflexivity.
  - intros e. apply ui_handle_completes.
  - intros [response | e]; unfold completion;
      [rewrite handleSendMessage_await_resolved
      |rewrite handleSendMessage_await_rejected]; reflexivity.
  - intros repoUrl [response | e]; unfold completion;
      [rewrite handleIndexRepository_await_resolved
      |rewrite handleIndexRepository_await_rejected]; reflexivity.
Qed.

(** X9. The flag is a boolean, not a count of the calls in flight: the
    settlement of any pending call lowers it, and takes that one call off
    the pending ones, however many others are still waiting. *)
Theorem flag_is_not_a_counter :
  forall (w : World) (k : nat),
    (forall o,
        nth_error (pending w) k = Some AwaitQuery ->
        let w' := step w (Settle k (QueryReply o)) in
        isProcessing w' = false /\ S (length (pending w')) = length (pending w)) /\
    (forall repoUrl o,
        nth_error (pending w) k = Some (AwaitIndex repoUrl) ->
        let w' := step w (Settle k (IndexReply o)) in
        isProcessing w' = false /\ S (length (pending w')) = length (pending w)).
Proof.
  intros w k; split; [intros o H w' | intros repoUrl o H w'];
    subst w'; unfold step, exec; cbn [handle]; rewrite settle_eq, H;
    cbn [outcomeOf];
    [destruct (outcomeOfQuery o) | destruct (outcomeOfIndex repoUrl o)];
    cbn [snd settled without isProcessing pending];
    (split; [reflexivity | exact (remove_nth_length _ _ H)]).
Qed.

Lemma flag_is_not_a_counter_witness :
  length (pending w_two_pending) = 2 /\
  isProcessing
    (step w_two_pending (Settle 0 (QueryReply (Rejected networkError))))
    = false /\
  S (length (pending
       (step w_two_pending (Settle 0 (QueryReply (Rejected networkError))))))
    = length (pending w_two_pending).
Proof.
  split; [reflexivity |].
  exact (proj1 (flag_is_not_a_counter w_two_pending 0)
               (Rejected networkError) eq_refl).
Defined.

(* ------------------------------------------------------------------ *)
(** ** Behind the rendered controls *)

Lemma exchanges_app (a b : list Sender) :
  exchanges a = true -> exchanges (a ++ b) = exchanges b.
Proof.
  assert (H : forall n (a : list Sender), length a <= n ->
                exchanges a = true -> exchanges (a ++ b) = exchanges b).
  { induction n as [|n IH]; intros [|[|] l] L E; cbn in L; try lia;
      try reflexivity.
    - destruct l as [|[|] l]; try discriminate. cbn in L |- *.
      apply IH; [lia | exact E].
    - cbn in E |- *. apply IH; [lia | exact E]. }
  now apply (H (length a)).
Qed.

(** While the flag is up the controls let nothing through. *)
Lemma ui_step_busy (w : World) (e : UI.Event) :
  isProcessing w = true ->
  (forall k reply, e <> UI.Settled k reply) ->
  UI.step w e = w.
Proof.
  intros B N. unfold UI.step, exec.
  destruct e as [v | e | | v | e | | k reply]; cbn [UI.handle];
    unfold UI.dispatch, UI.enabled, ChatInput.repoUrl_input,
      ChatInput.index_button, ChatInput.question_input, ChatInput.send_button;
    cbn [ChatInput.isDisabled ChatInput.isLoading];
    rewrite ?B, ?orb_true_r; try reflexivity.
  now destruct (N k reply).
Qed.

Lemma guarded_same (w w' : World) :
  messages w' = messages w -> isProcessing w' = isProcessing w ->
  pending w' = pending w -> Guarded w -> Guarded w'.
Proof.
  intros M F P [I1 I2 I3 | s I1 I2 I3 I4 | r I1 I2 I3].
  - apply guarded_idle; congruence.
  - apply guarded_query with s; congruence.
  - apply guarded_index with r; congruence.
Qed.

Lemma guarded_send (w : World) :
  isProcessing w = false -> Guarded w ->
  Guarded (exec (ChatInput.handleSendMessage App.handleSendMessage) w).
Proof.
  intros F G. unfold exec. rewrite click_send_eq.
  destruct (acceptsQuestion _ _); [|exact G].
  destruct G as [I1 I2 I3 | s I1 I2 I3 I4 | r I1 I2 I3]; try congruence.
  apply guarded_query with (map Message.sender (messages w)); cbn.
  - reflexivity.
  - now rewrite I2.
  - now rewrite map_app.
  - exact I3.
Qed.

Lemma guarded_step (w : World) (e : UI.Event) :
  Guarded w -> Guarded (UI.step w e).
Proof.
  intros G. destruct (isProcessing w) eqn:F.
  - (* the flag is up: only a settlement does anything *)
    destruct e as [v | e | | v | e | | k reply];
      try (rewrite ui_step_busy; [exact G | exact F | discriminate]).
    unfold UI.step, exec. cbn [UI.handle]. rewrite settle_eq.
    destruct G as [I1 I2 I3 | s I1 I2 I3 I4 | r I1 I2 I3]; try congruence;
      rewrite I2; destruct k as [|[|k]]; cbn [nth_error];
      try (first [apply guarded_query with s | apply guarded_index with r];
           assumption).
    + destruct reply as [o|o]; cbn [outcomeOf];
        [|apply guarded_query with s; assumption].
      destruct (outcomeOfQuery o) as [m b] eqn:O. cbn [snd].
      apply guarded_idle; cbn; rewrite ?I2; try reflexivity.
      rewrite map_app, I3, <- app_assoc. cbn [map app turn Message.sender].
      rewrite (@exchanges_app _ _ I4).
      destruct o; injection O as <- _; reflexivity.
    + destruct reply as [o|o]; cbn [outcomeOf];
        [apply guarded_index with r; assumption |].
      destruct (outcomeOfIndex r o) as [m b] eqn:O. cbn [snd].
      apply guarded_idle; cbn; rewrite ?I2; try reflexivity.
      rewrite map_app. cbn [map turn Message.sender].
      rewrite (@exchanges_app _ _ I3).
      destruct o; injection O as <- _; reflexivity.
  - (* the flag is down *)
    assert (P : pending w = []).
    { destruct G as [I1 I2 I3 | s I1 I2 I3 I4 | r I1 I2 I3]; congruence. }
    unfold UI.step, exec.
    destruct e as [v | e | | v | e | | k reply]; cbn [UI.handle];
      unfold UI.dispatch.
    + destruct (UI.enabled _); [|exact G]. now apply (guarded_same (w := w)).
    + destruct (UI.enabled _); exact G.
    + destruct (UI.enabled _); [|exact G]. rewrite click_index_eq.
      destruct (acceptsIndexing _); [|exact G]. cbn [snd].
      destruct G as [I1 I2 I3 | s I1 I2 I3 I4 | r I1 I2 I3]; try congruence.
      apply guarded_index with (ChatInput.repoUrl w); cbn;
        rewrite ?I2; auto.
    + destruct (UI.enabled _); [|exact G]. now apply (guarded_same (w := w)).
    + destruct (UI.enabled _); [|exact G].
      unfold bind, ChatInput.handleKeyDown.
      destruct (ChatInput.strictEquals _ _ && negb _); [|exact G].
      pose proof (guarded_send F G) as G'. unfold exec in G'.
      unfold bind.
      destruct (ChatInput.handleSendMessage App.handleSendMessage w)
        as [[[]|x] w'] eqn:E; exact G'.
    + destruct (UI.enabled _); [|exact G]. now apply guarded_send.
    + rewrite settle_eq, P. destruct k; exact G.
Qed.

Lemma guarded_run (events : list UI.Event) (w : World) :
  Guarded w -> Guarded (UI.run events w).
Proof.
  revert w; induction events as [|e events IH]; intros w G; [exact G |].
  apply IH. now apply guarded_step.
Qed.

Lemma guarded_initial (clk : nat -> Z) : Guarded (initial clk).
Proof. now apply guarded_idle. Qed.

(** X10. While the flag is up the application takes no input: typing in either
    field, a key pressed, a click on Index or on Send leave the world as
    it is; only the settlement of the pending call changes it. *)
Theorem busy_controls_take_no_input :
  forall (w : World) (e : UI.Event),
    isProcessing w = true ->
    (forall k reply, e <> UI.Settled k reply) ->
    UI.step w e = w.
Proof.
  intros w e B N. unfold UI.step, exec.
  destruct e as [v | e | | v | e | | k reply]; cbn [UI.handle];
    unfold UI.dispatch, UI.enabled, ChatInput.repoUrl_input,
      ChatInput.index_button, ChatInput.question_input, ChatInput.send_button;
    cbn [ChatInput.isDisabled ChatInput.isLoading];
    rewrite ?B, ?orb_true_r; try reflexivity.
  now destruct (N k reply).
Qed.

Lemma busy_controls_take_no_input_witness :
  isProcessing w_busy = true /\
  UI.step (typed q1 r0 w_busy) UI.ClickSend = typed q1 r0 w_busy.
Proof.
  split; [reflexivity |].
  apply (@busy_controls_take_no_input (typed q1 r0 w_busy) UI.ClickSend);
    [reflexivity | discriminate].
Defined.

(** X11. Through the rendered controls at most one call is in flight, and the
    flag is up exactly while one is: after any sequence of events of the
    user and of settlements, the number of pending calls is 1 when
    [isProcessing] is true and 0 when it is false. *)
Theorem one_call_in_flight :
  forall (clk : nat -> Z) (events : list UI.Event),
    let w := UI.run events (initial clk) in
    length (pending w) = if isProcessing w then 1 else 0.
Proof.
  intros clk events w.
  destruct (guarded_run events (guarded_initial clk))
    as [I1 I2 I3 | s I1 I2 I3 I4 | r I1 I2 I3];
    fold w in I1, I2; now rewrite I1, I2.
Qed.

(** X12. Through the rendered controls the Turns of two operations never
    interleave: the transcript is a sequence of whole exchanges (a bot
    Turn reporting an indexing, or a user Turn directly followed by the
    bot Turn of its query), with one more user Turn at the end exactly
    while its query is in flight. *)
Theorem turns_do_not_interleave :
  forall (clk : nat -> Z) (events : list UI.Event),
    let w := UI.run events (initial clk) in
    exists earlier : list Sender,
      exchanges earlier = true /\
      ((map Message.sender (messages w) = earlier /\
        pending w <> [AwaitQuery]) \/
       (map Message.sender (messages w) = earlier ++ [user] /\
        pending w = [AwaitQuery])).
Proof.
  intros clk events w.
  destruct (guarded_run events (guarded_initial clk))
    as [I1 I2 I3 | s I1 I2 I3 I4 | r I1 I2 I3]; fold w in I1, I2, I3.
  - eexists; split; [exact I3 |]. left. split; [reflexivity |].
    rewrite I2. discriminate.
  - exists s; split; [exact I4 |]. now right.
  - eexists; split; [exact I3 |]. left. split; [reflexivity |].
    rewrite I2. discriminate.
Qed.

(* ------------------------------------------------------------------ *)
(** ** What is displayed *)

Lemma map_index_boxes (bg : JsString) (chunks : list Chunk.t) (n : nat) :
  let boxes :=
    ChatMessage.map_index
      (fun chunk index =>
         {| ChatMessage.key := index; ChatMessage.box_bg := bg;
            ChatMessage.box_file_path := Chunk.file_path chunk;
            ChatMessage.box_text := Chunk.text chunk |}) chunks n in
  map ChatMessage.key boxes = seq n (length chunks) /\
  map ChatMessage.box_file_path boxes = map Chunk.file_path chunks /\
  map ChatMessage.box_text boxes = map Chunk.text chunks.
Proof.
  revert n; induction chunks as [|c chunks IH]; intros n; cbn.
  - now repeat split.
  - destruct (IH (S n)) as (K & P & T). cbn in K, P, T.
    now rewrite K, P, T.
Qed.

(** X14. From the answer of the service to the screen: after an accepted
    question answered with [response], the chat area shows the transcript
    and its last item is labelled "GitHub Assistant", has the answer as
    markdown and, when chunks were returned, lists exactly these chunks
    in the order returned (path and text), keyed 0, 1, 2, ...; when none
    was returned there is no "Relevant code" list. *)
Theorem answer_is_displayed :
  forall (mode : ColorMode) (w : World) (question repoUrl : JsString)
         (response : QueryResponse.t),
    acceptsQuestion question repoUrl = true ->
    let w2 := run [SubmitQuestion question repoUrl;
                   Settle (length (pending w))
                          (QueryReply (Resolved (mkResponse response)))] w in
    exists (items : list (JsString * ChatMessage.View))
           (id : JsString) (view : ChatMessage.View),
      App.chatArea mode w2 = App.Transcript (items ++ [(id, view)]) /\
      length items = S (length (messages w)) /\
      ChatMessage.label view = lit "GitHub Assistant" /\
      ChatMessage.markdown view = QueryResponse.answer response /\
      match QueryResponse.chunks response with
      | [] => ChatMessage.relevantCode view = None
      | _ :: _ =>
          exists boxes : list ChatMessage.ChunkBox,
            ChatMessage.relevantCode view = Some boxes /\
            map ChatMessage.key boxes =
              seq 0 (length (QueryResponse.chunks response)) /\
            map ChatMessage.box_file_path boxes =
              map Chunk.file_path (QueryResponse.chunks response) /\
            map ChatMessage.box_text boxes =
              map Chunk.text (QueryResponse.chunks response)
      end.
Proof.
  intros mode w question repoUrl response H w2.
  assert (E := run_question w question repoUrl
                 (Resolved (mkResponse response)) H).
  fold w2 in E. cbn [outcomeOfQuery fst snd data] in E.
  unfold App.chatArea. rewrite E. unfold settled. cbn [messages clock reads].
  rewrite <- app_assoc. cbn [app].
  rewrite length_app. cbn [length].
  replace (length (messages w) + 2 =? 0) with false
    by (symmetry; apply Nat.eqb_neq; lia).
  rewrite map_app. cbn [map].
  eexists (_ ++ [_]), _, _. rewrite <- app_assoc. cbn [app].
  split; [reflexivity |].
  split; [rewrite length_app, length_map; cbn; lia |].
  split; [reflexivity |]. split; [reflexivity |].
  cbn [ChatMessage.render ChatMessage.relevantCode turn botMessage
       Message.chunks Draft.chunks].
  destruct (QueryResponse.chunks response) as [|c chunks] eqn:C;
    [reflexivity |].
  cbn [length Nat.ltb Nat.leb]. eexists; split; [reflexivity |].
  apply map_index_boxes.
Qed.

Lemma answer_is_displayed_witness :
  acceptsQuestion q0 r0 = true /\
  exists (items : list (JsString * ChatMessage.View))
         (id : JsString) (view : ChatMessage.View),
    App.chatArea dark w_answered = App.Transcript (items ++ [(id, view)]) /\
    length items = S (length (messages w0)) /\
    ChatMessage.label view = lit "GitHub Assistant" /\
    ChatMessage.markdown view = QueryResponse.answer response0 /\
    exists boxes : list ChatMessage.ChunkBox,
      ChatMessage.relevantCode view = Some boxes /\
      map ChatMessage.key boxes = seq 0 1 /\
      map ChatMessage.box_file_path boxes = [lit "main.go"] /\
      map ChatMessage.box_text boxes = [lit "func main(){}"].
Proof.
  split; [reflexivity |].
  exact (answer_is_displayed dark w0 q0 r0 response0 eq_refl).
Defined.

(** What an event appends carries no chunks, unless the event is the
    arrival of a response to a query, whose answer and chunks it carries. *)
Lemma step_provenance (w : World) (e : Event) :
  messages (step w e) = messages w \/
  exists d : Draft.t,
    messages (step w e) = messages w ++ [turn d w] /\
    (Draft.chunks d = None \/
     exists (k : nat) (response : QueryResponse.t),
       e = Settle k (QueryReply (Resolved (mkResponse response))) /\
       d = botMessage response).
Proof.
  unfold step, exec. destruct e as [q r | r | k reply]; cbn [handle].
  - rewrite submitQuestion_eq. destruct (acceptsQuestion q r); cbn [snd].
    + right. exists (userMessage q). split; [reflexivity | now left].
    + now left.
  - rewrite requestIndexing_eq. destruct (acceptsIndexing r); now left.
  - rewrite settle_eq.
    destruct (nth_error (pending w) k) as [p|]; [|now left].
    destruct p, reply as [o|o]; cbn [outcomeOf]; try (now left);
      destruct o as [[response] | e];
      cbn [outcomeOfQuery outcomeOfIndex snd data];
      right; eexists; (split; [reflexivity |]).
    + right. now exists k, response.
    + now left.
    + now left.
    + now left.
Qed.

Lemma answeredBy_more (prior later : list Event) (m : Message.t) :
  answeredBy prior m -> answeredBy (prior ++ later) m.
Proof.
  intros (k & response & I & B). exists k, response. split; [|exact B].
  apply in_or_app. now left.
Qed.

Lemma run_provenance (events prior : list Event) (w : World) :
  Forall (fun m => Message.chunks m = None \/ answeredBy prior m)
         (messages w) ->
  Forall (fun m => Message.chunks m = None \/ answeredBy (prior ++ events) m)
         (messages (run events w)).
Proof.
  revert prior w; induction events as [|e events IH]; intros prior w H.
  - now rewrite app_nil_r.
  - rewrite run_cons.
    replace (prior ++ e :: events) with ((prior ++ [e]) ++ events)
      by now rewrite <- app_assoc.
    apply IH.
    assert (H' : Forall (fun m => Message.chunks m = None \/
                                  answeredBy (prior ++ [e]) m) (messages w)).
    { eapply Forall_impl; [|exact H].
      intros m [N | A]; [now left | right; now apply answeredBy_more]. }
    destruct (step_provenance w e) as [-> | (d & -> & P)]; [exact H' |].
    apply Forall_app; split; [exact H' |].
    apply Forall_cons; [|apply Forall_nil].
    destruct P as [N | (k & response & -> & ->)]; [now left |].
    right. exists k, response. split.
    + apply in_or_app. right. now left.
    + now repeat split.
Qed.

(** X15. The "Relevant code" list is shown under a Turn of the transcript
    only if a response to a query arrived, among the events that led
    there, with at least one chunk, and the Turn is the bot Turn carrying
    the answer and the chunks of that response.  The Turns that any other
    event appends (a question, a query that failed, an indexing that
    succeeded or failed) are rendered without the list. *)
Theorem relevant_code_only_under_answers :
  forall (mode : ColorMode) (clk : nat -> Z) (events : list Event),
    (forall m : Message.t,
       In m (messages (run events (initial clk))) ->
       ChatMessage.relevantCode (ChatMessage.render mode m) <> None ->
       exists (k : nat) (response : QueryResponse.t),
         In (Settle k (QueryReply (Resolved (mkResponse response)))) events /\
         Message.sender m = bot /\
         Message.content m = QueryResponse.answer response /\
         Message.chunks m = Some (QueryResponse.chunks response) /\
         QueryResponse.chunks response <> []) /\
    (forall (w : World) (e : Event),
       (forall k response,
          e <> Settle k (QueryReply (Resolved (mkResponse response)))) ->
       exists added : list Message.t,
         messages (step w e) = messages w ++ added /\
         Forall (fun m =>
                   ChatMessage.relevantCode (ChatMessage.render mode m) = None)
                added).
Proof.
  intros mode clk events. split.
  - intros m Hin Hshown.
    assert (F : Forall (fun m => Message.chunks m = None \/
                                 answeredBy ([] ++ events) m)
                       (messages (run events (initial clk))))
      by (apply run_provenance; constructor).
    rewrite Forall_forall in F. cbn [app] in F.
    unfold ChatMessage.render in Hshown.
    cbn [ChatMessage.relevantCode] in Hshown.
    destruct (F m Hin) as [N | (k & response & I & C & S & K)].
    + rewrite N in Hshown. now destruct Hshown.
    + exists k, response. rewrite K in Hshown. cbn in Hshown, C, S, K.
      repeat split; try assumption.
      intros E. rewrite E in Hshown. now apply Hshown.
  - intros w e N.
    destruct (step_provenance w e) as [-> | (d & -> & P)].
    + exists []. now rewrite app_nil_r.
    + eexists; split; [reflexivity |].
      apply Forall_cons; [|apply Forall_nil].
      destruct P as [C | (k & response & -> & _)];
        [|now destruct (N k response)].
      unfold ChatMessage.render. cbn [ChatMessage.relevantCode turn Message.chunks].
      now rewrite C.
Qed.

Lemma relevant_code_only_under_answers_witness :
  In (turn (botMessage response0) (run [SubmitQuestion q0 r0] (initial clock0)))
     (messages (run [SubmitQuestion q0 r0;
                     Settle 0 (QueryReply (Resolved (mkResponse response0)))]
                    (initial clock0))) /\
  ChatMessage.relevantCode
    (ChatMessage.render light
       (turn (botMessage response0)
             (run [SubmitQuestion q0 r0] (initial clock0)))) <> None /\
  exists (k : nat) (response : QueryResponse.t),
    In (Settle k (QueryReply (Resolved (mkResponse response))))
       [SubmitQuestion q0 r0;
        Settle 0 (QueryReply (Resolved (mkResponse response0)))] /\
    Message.sender
      (turn (botMessage response0)
            (run [SubmitQuestion q0 r0] (initial clock0))) = bot /\
    Message.content
      (turn (botMessage response0)
            (run [SubmitQuestion q0 r0] (initial clock0)))
      = QueryResponse.answer response /\
    Message.chunks
      (turn (botMessage response0)
            (run [SubmitQuestion q0 r0] (initial clock0)))
      = Some (QueryResponse.chunks response) /\
    QueryResponse.chunks response <> [].
Proof.
  assert (I : In (turn (botMessage response0)
                       (run [SubmitQuestion q0 r0] (initial clock0)))
                 (messages (run [SubmitQuestion q0 r0;
                                 Settle 0 (QueryReply
                                   (Resolved (mkResponse response0)))]
                                (initial clock0))))
    by (vm_compute; right; left; reflexivity).
  assert (S : ChatMessage.relevantCode
                (ChatMessage.render light
                   (turn (botMessage response0)
                         (run [SubmitQuestion q0 r0] (initial clock0))))
              <> None) by (vm_compute; discriminate).
  split; [exact I |]. split; [exact S |].
  exact (proj1 (relevant_code_only_under_answers light clock0
                  [SubmitQuestion q0 r0;
                   Settle 0 (QueryReply (Resolved (mkResponse response0)))])
               (turn (botMessage response0)
                     (run [SubmitQuestion q0 r0] (initial clock0))) I S).
Defined.

(** X16. The welcome screen is shown exactly while the transcript is empty,
    and once a Turn has been appended no event brings it back. *)
Theorem welcome_only_before_first_turn :
  forall (mode : ColorMode) (w : World) (events later : list Event),
    (App.chatArea mode w = App.Welcome <-> messages w = []) /\
    (App.chatArea mode (run events w) <> App.Welcome ->
     App.chatArea mode (run (events ++ later) w) <> App.Welcome).
Proof.
  intros mode w events later.
  assert (W : forall v, App.chatArea mode v = App.Welcome <-> messages v = []).
  { intros v. unfold App.chatArea. destruct (messages v); cbn; split;
      intros; (reflexivity || discriminate). }
  split; [apply W |].
  rewrite !W, run_app.
  destruct (run_appends later (run events w)) as (added & -> & _).
  intros N E. apply app_eq_nil in E as [E _]. now apply N.
Qed.

Lemma welcome_only_before_first_turn_witness :
  App.chatArea light w0 = App.Welcome /\
  App.chatArea light (run [SubmitQuestion q0 r0] w0) <> App.Welcome /\
  App.chatArea light
    (run ([SubmitQuestion q0 r0] ++
          [Settle 0 (QueryReply (Rejected networkError))]) w0) <> App.Welcome.
Proof.
  assert (N : App.chatArea light (run [SubmitQuestion q0 r0] w0) <> App.Welcome)
    by discriminate.
  split; [reflexivity |]. split; [exact N |].
  exact (proj2 (welcome_only_before_first_turn light w0
                  [SubmitQuestion q0 r0]
                  [Settle 0 (QueryReply (Rejected networkError))]) N).
Defined.

(* ------------------------------------------------------------------ *)
(** ** The code renderer *)

Lemma replace_final_newline_snoc (body : JsString) :
  ChatMessage.replace_final_newline (body ++ [LF]) = body.
Proof.
  induction body as [|c body IH]; [reflexivity |].
  cbn [app ChatMessage.replace_final_newline]. rewrite IH.
  now destruct body.
Qed.

Lemma replace_final_newline_other (s : JsString) :
  (forall body, s <> body ++ [LF]) ->
  ChatMessage.replace_final_newline s = s.
Proof.
  induction s as [|c s IH]; intros H; [reflexivity |].
  cbn [ChatMessage.replace_final_newline]. destruct s as [|c' s].
  - destruct (N.eqb_spec c 10); [|reflexivity].
    subst c. now destruct (H []).
  - f_equal. apply IH. intros body E. apply (H (c :: body)).
    cbn. now rewrite <- E.
Qed.

(** X17. The [code] component: code whose class holds [language-] is passed on
    as it is; any other code (no class at all included) is shown padded
    and loses one final line feed, and only that: a second line feed
    before it stays, and code not ending in a line feed is unchanged. *)
Theorem code_loses_one_final_newline :
  forall (className : option JsString) (children body : JsString),
    (forall c, className = Some c ->
               ChatMessage.includes c (lit "language-") = true ->
               ChatMessage.code className children =
               ChatMessage.mkCodeView className false children) /\
    ((className = None \/
      exists c, className = Some c /\
                ChatMessage.includes c (lit "language-") = false) ->
     ChatMessage.code className (body ++ [LF]) =
       ChatMessage.mkCodeView className true body /\
     ((forall b, children <> b ++ [LF]) ->
      ChatMessage.code className children =
        ChatMessage.mkCodeView className true children)).
Proof.
  intros className children body. split.
  - intros c -> I. unfold ChatMessage.code. now rewrite I.
  - intros H.
    assert (E : forall s, ChatMessage.code className s =
                ChatMessage.mkCodeView className true
                  (ChatMessage.replace_final_newline s)).
    { intros s. unfold ChatMessage.code.
      destruct H as [-> | (c & -> & I)]; [reflexivity | now rewrite I]. }
    split.
    + now rewrite E, replace_final_newline_snoc.
    + intros N. now rewrite E, replace_final_newline_other.
Qed.

Lemma code_loses_one_final_newline_witness :
  ChatMessage.code (Some (lit "language-go")) (lit "main()" ++ [LF]) =
    ChatMessage.mkCodeView (Some (lit "language-go")) false
                           (lit "main()" ++ [LF]) /\
  ChatMessage.code None ((lit "main()" ++ [LF]) ++ [LF]) =
    ChatMessage.mkCodeView None true (lit "main()" ++ [LF]).
Proof.
  split.
  - exact (proj1 (code_loses_one_final_newline
                    (Some (lit "language-go")) (lit "main()" ++ [LF]) [])
                 (lit "language-go") eq_refl eq_refl).
  - exact (proj1 (proj2 (code_loses_one_final_newline
                           None [] (lit "main()" ++ [LF]))
                        (or_introl eq_refl))).
Defined.

(* ------------------------------------------------------------------ *)
(** ** The controls and the two operations *)

Lemma settle_typed (m r : JsString) (k : nat) (reply : Reply) (w : World) :
  exec (settle k reply) (typed m r w) = typed m r (exec (settle k reply) w).
Proof.
  unfold exec. rewrite !settle_eq. cbn [typed pending].
  destruct (nth_error (pending w) k) as [p|]; [|reflexivity].
  destruct (outcomeOf p reply) as [[d b]|]; reflexivity.
Qed.

Lemma click_send_typed (m r : JsString) (w : World) :
  exec (ChatInput.handleSendMessage App.handleSendMessage) (typed m r w) =
  typed (if acceptsQuestion m r then [] else m) r
        (step w (SubmitQuestion m r)).
Proof.
  unfold step, exec. cbn [handle]. rewrite click_send_eq, submitQuestion_eq.
  cbn [typed ChatInput.message ChatInput.repoUrl input
       ChatInput_state.message ChatInput_state.repoUrl].
  now destruct (acceptsQuestion m r).
Qed.

Lemma click_index_typed (m r : JsString) (w : World) :
  exec (ChatInput.handleIndexClick App.handleIndexRepository) (typed m r w) =
  typed m r (step w (RequestIndexing r)).
Proof.
  unfold step, exec. cbn [handle]. rewrite click_index_eq, requestIndexing_eq.
  cbn [typed ChatInput.message ChatInput.repoUrl input
       ChatInput_state.message ChatInput_state.repoUrl].
  now destruct (acceptsIndexing r).
Qed.

Lemma run_snoc (events : list Event) (e : Event) (w : World) :
  run (events ++ [e]) w = step (run events w) e.
Proof. now rewrite run_app. Qed.

Lemma ui_step_simulated (clk : nat -> Z) (e : UI.Event) (w : World) :
  (exists operations m r, w = typed m r (run operations (initial clk))) ->
  exists operations m r,
    UI.step w e = typed m r (run operations (initial clk)).
Proof.
  intros (ops & m & r & ->). unfold UI.step.
  destruct e as [v | e | | v | e | | k reply]; cbn [UI.handle];
    unfold UI.dispatch, exec.
  - destruct (UI.enabled _); [|now exists ops, m, r].
    now exists ops, m, v.
  - destruct (UI.enabled _); now exists ops, m, r.
  - destruct (UI.enabled _); [|now exists ops, m, r].
    exists (ops ++ [RequestIndexing r]), m, r.
    rewrite run_snoc. apply click_index_typed.
  - destruct (UI.enabled _); [|now exists ops, m, r].
    now exists ops, v, r.
  - destruct (UI.enabled _); [|now exists ops, m, r].
    unfold bind at 1, ChatInput.handleKeyDown.
    destruct (ChatInput.strictEquals _ _ && negb _); [|now exists ops, m, r].
    pose proof (click_send_typed m r (run ops (initial clk))) as E.
    unfold exec in E. unfold bind.
    destruct (ChatInput.handleSendMessage App.handleSendMessage
                (typed m r (run ops (initial clk)))) as [[[]|x] w'] eqn:E';
      cbn [snd] in E |- *;
      exists (ops ++ [SubmitQuestion m r]),
        (if acceptsQuestion m r then [] else m), r;
      rewrite run_snoc; exact E.
  - destruct (UI.enabled _); [|now exists ops, m, r].
    exists (ops ++ [SubmitQuestion m r]),
      (if acceptsQuestion m r then [] else m), r.
    rewrite run_snoc. apply click_send_typed.
  - exists (ops ++ [Settle k reply]), m, r.
    rewrite run_snoc. apply settle_typed.
Qed.

(** X13. Whatever the user does on the controls amounts to the two
    operations: the world reached by any sequence of changes, keys,
    clicks and settlements is the world reached by some sequence of
    [submitQuestion], [requestIndexing] and settlements, up to the text
    left in the two fields. *)
Theorem controls_drive_the_operations :
  forall (clk : nat -> Z) (events : list UI.Event),
    exists (operations : list Event) (message repoUrl : JsString),
      UI.run events (initial clk) =
      typed message repoUrl (run operations (initial clk)).
Proof.
  intros clk events.
  assert (H : forall w,
             (exists ops m r, w = typed m r (run ops (initial clk))) ->
             exists ops m r,
               UI.run events w = typed m r (run ops (initial clk))).
  { induction events as [|e events IH]; intros w Hw; [exact Hw |].
    apply IH. now apply ui_step_simulated. }
  apply H. now exists [], [], [].
Qed.

(* ------------------------------------------------------------------ *)
(** ** The repository of the conversation, again *)

(** C8, as the code has it.  No repository is recorded: what a handler of
    [App] leaves in the state does not depend on the URL it is given,
    which only goes into the request (and, for an indexing, into the
    pending call and its report).  The repository URL lives in the
    [repoUrl] field of [ChatInput] and is set by typing alone: an accepted
    send or indexing click posts the value the field has and leaves the
    field as it is, a settlement leaves it as it is, and [onChange] sets
    it to whatever is typed, operation or not. *)
Theorem repository_is_the_url_field :
  forall (w : World) (content repoUrl other value : JsString)
         (k : nat) (reply : Reply),
    (messages (exec (App.handleSendMessage content repoUrl) w) =
       messages (exec (App.handleSendMessage content other) w) /\
     isProcessing (exec (App.handleSendMessage content repoUrl) w) =
       isProcessing (exec (App.handleSendMessage content other) w) /\
     input (exec (App.handleSendMessage content repoUrl) w) = input w /\
     pending (exec (App.handleSendMessage content repoUrl) w) =
       pending (exec (App.handleSendMessage content other) w)) /\
    (messages (exec (App.handleIndexRepository repoUrl) w) = messages w /\
     input (exec (App.handleIndexRepository repoUrl) w) = input w) /\
    (acceptsQuestion (ChatInput.message w) (ChatInput.repoUrl w) = true ->
       let w' := exec (ChatInput.handleSendMessage App.handleSendMessage) w in
       ChatInput.repoUrl w' = ChatInput.repoUrl w /\
       exists effects : list Effect,
         trace w' = effects ++
                    [queryPost (ChatInput.message w) (ChatInput.repoUrl w)]) /\
    (acceptsIndexing (ChatInput.repoUrl w) = true ->
       let w' := exec (ChatInput.handleIndexClick App.handleIndexRepository) w in
       ChatInput.repoUrl w' = ChatInput.repoUrl w /\
       exists effects : list Effect,
         trace w' = effects ++ [indexPost (ChatInput.repoUrl w)]) /\
    ChatInput.repoUrl (exec (settle k reply) w) = ChatInput.repoUrl w /\
    ChatInput.repoUrl (exec (ChatInput.onChange_repoUrl value) w) = value.
Proof.
  intros w content repoUrl other value k reply.
  split; [|split; [|split; [|split; [|split]]]].
  - unfold exec. rewrite !handleSendMessage_eq. repeat split; reflexivity.
  - unfold exec. rewrite handleIndexRepository_eq.
    destruct (truthy repoUrl); split; reflexivity.
  - intros H w'. subst w'. unfold exec. rewrite click_send_eq, H. cbn [snd].
    split; [reflexivity |]. cbn [trace].
    exists (trace w ++
            [SetMessages
               (messages w ++ [turn (userMessage (ChatInput.message w)) w]);
             SetIsProcessing true]).
    now rewrite <- app_assoc.
  - intros H w'. subst w'. unfold exec. rewrite click_index_eq, H. cbn [snd].
    split; [reflexivity |]. cbn [trace].
    exists (trace w ++ [SetIsProcessing true]). now rewrite <- app_assoc.
  - unfold ChatInput.repoUrl. now rewrite settle_input.
  - reflexivity.
Qed.

Lemma repository_is_the_url_field_witness :
  acceptsQuestion (ChatInput.message (typed q0 r0 w0))
                  (ChatInput.repoUrl (typed q0 r0 w0)) = true /\
  ChatInput.repoUrl
    (exec (ChatInput.handleSendMessage App.handleSendMessage) (typed q0 r0 w0))
  = ChatInput.repoUrl (typed q0 r0 w0) /\
  ChatInput.repoUrl (typed q0 r0 w0) = r0.
Proof.
  split; [reflexivity |]. split; [|reflexivity].
  exact (proj1 (proj1 (proj2 (proj2
           (repository_is_the_url_field (typed q0 r0 w0) [] [] [] []
              0 (QueryReply (Rejected networkError))))) eq_refl)).
Defined.

(** C8 as the spec words it fails: the last accepted operation was given
    [r0], and the repository of the conversation reads [r1] all the same,
    after the user typed [r1], or after an operation that was given [r1]
    and was not accepted; neither posts anything. *)
Lemma repository_changes_without_intent_counterexample :
  r1 <> r0 /\
  acceptsQuestion q0 r0 = true /\
  ChatInput.repoUrl (run [SubmitQuestion q0 r0] w0) = r0 /\
  ChatInput.repoUrl
    (exec (ChatInput.onChange_repoUrl r1) (run [SubmitQuestion q0 r0] w0))
    = r1 /\
  acceptsQuestion blank r1 = false /\
  ChatInput.repoUrl (run [SubmitQuestion q0 r0; SubmitQuestion blank r1] w0)
    = r1 /\
  trace (run [SubmitQuestion q0 r0; SubmitQuestion blank r1] w0) =
    trace (run [SubmitQuestion q0 r0] w0).
Proof. repeat split; try reflexivity. discriminate. Qed.

(* ------------------------------------------------------------------ *)
(** ** A query that fails, on the values behind the types *)

Lemma consoleOf_app (a b : list Effect) :
  consoleOf (a ++ b) = consoleOf a ++ consoleOf b.
Proof. apply flat_map_app. Qed.

(** On a reply that has the type it is declared with, the continuation
    on untyped values does what the typed one does. *)
Lemma runtime_agrees_with_types
    (o : Outcome (AxiosResponse QueryResponse.t)) (w : World) :
  Runtime.handleSendMessage_await (ofReply o) (ofWorld w) =
  (Normal tt, ofWorld (exec (App.handleSendMessage_await o) w)).
Proof.
  unfold exec. destruct o as [response | e]; cbn [ofReply].
  - rewrite handleSendMessage_await_resolved. cbn [snd].
    unfold ofWorld, settled. cbn [messages isProcessing trace clock reads].
    rewrite map_app, !consoleOf_app. cbn [app consoleOf flat_map].
    rewrite app_nil_r. reflexivity.
  - rewrite handleSendMessage_await_rejected. cbn [snd].
    unfold ofWorld, settled. cbn [messages isProcessing trace clock reads].
    rewrite map_app, !consoleOf_app. cbn [app consoleOf flat_map].
    reflexivity.
Qed.

(** C4, as the code has it.  An accepted [submitQuestion] always ends
    with exactly one bot Turn after the user Turn, the flag down and
    nothing thrown.  That Turn is the fixed apology, without chunks, when
    the query promise is rejected (a network error, a status axios
    rejects) and when it resolves with [null] or [undefined], whose
    properties cannot be read.  Any other body the promise resolves with
    is taken as an answer, unchecked: the Turn gets whatever [answer] and
    [chunks] the body has, [undefined] when it has none, and nothing is
    logged. *)
Theorem failed_question_is_reported :
  forall (w : World) (question repoUrl : JsString)
         (reply : Outcome (AxiosResponse Runtime.JsValue)),
    acceptsQuestion question repoUrl = true ->
    let s1 := ofWorld (run [SubmitQuestion question repoUrl] w) in
    let s2 := snd (Runtime.handleSendMessage_await reply s1) in
    exists userTurn botTurn : Runtime.Message,
      Runtime.messages s1 = map ofMessage (messages w) ++ [userTurn] /\
      Runtime.messages s2 =
        map ofMessage (messages w) ++ [userTurn; botTurn] /\
      Runtime.sender userTurn = user /\
      Runtime.content userTurn = Runtime.Str question /\
      Runtime.sender botTurn = bot /\
      Runtime.isProcessing s2 = false /\
      completion (handle (SubmitQuestion question repoUrl)) w = Normal tt /\
      fst (Runtime.handleSendMessage_await reply s1) = Normal tt /\
      match reply with
      | Rejected e =>
          Runtime.content botTurn = apology /\
          Runtime.chunks botTurn = Runtime.Undefined /\
          Runtime.errors s2 =
            Runtime.errors s1 ++ [(lit "Error sending message:", e)]
      | Resolved response =>
          match data response with
          | Runtime.Undefined | Runtime.Null =>
              Runtime.content botTurn = apology /\
              Runtime.chunks botTurn = Runtime.Undefined /\
              Runtime.errors s2 =
                Runtime.errors s1 ++
                [(lit "Error sending message:", Runtime.TypeError)]
          | Runtime.Obj properties =>
              Runtime.content botTurn =
                Runtime.lookup (lit "answer") properties /\
              Runtime.chunks botTurn =
                Runtime.lookup (lit "chunks") properties /\
              Runtime.errors s2 = Runtime.errors s1
          | _ =>
              Runtime.content botTurn = Runtime.Undefined /\
              Runtime.chunks botTurn = Runtime.Undefined /\
              Runtime.errors s2 = Runtime.errors s1
          end
      end.
Proof.
  intros w question repoUrl reply H s1 s2.
  assert (C : completion (handle (SubmitQuestion question repoUrl)) w = Normal tt).
  { unfold completion, handle. rewrite submitQuestion_eq, H. reflexivity. }
  assert (E1 : run [SubmitQuestion question repoUrl] w =
               exec (submitQuestion question repoUrl) w) by reflexivity.
  unfold exec in E1. rewrite submitQuestion_eq, H in E1. cbn [snd] in E1.
  subst s2 s1. rewrite E1. unfold ofWorld.
  cbn [messages isProcessing trace clock reads]. rewrite map_app.
  cbn [map].
  exists (ofMessage (turn (userMessage question) w)).
  destruct reply as [[body] | e]; [destruct body |];
    (eexists; cbn; rewrite <- ?app_assoc; cbn [app];
     repeat split; try reflexivity; exact C).
Qed.

Lemma failed_question_is_reported_witness :
  acceptsQuestion q0 r0 = true /\
  exists userTurn botTurn : Runtime.Message,
    Runtime.messages (ofWorld (run [SubmitQuestion q0 r0] w0)) =
      map ofMessage (messages w0) ++ [userTurn] /\
    Runtime.messages
      (snd (Runtime.handleSendMessage_await (Rejected networkError)
              (ofWorld (run [SubmitQuestion q0 r0] w0)))) =
      map ofMessage (messages w0) ++ [userTurn; botTurn] /\
    Runtime.sender userTurn = user /\
    Runtime.content userTurn = Runtime.Str q0 /\
    Runtime.sender botTurn = bot /\
    Runtime.isProcessing
      (snd (Runtime.handleSendMessage_await (Rejected networkError)
              (ofWorld (run [SubmitQuestion q0 r0] w0)))) = false /\
    completion (handle (SubmitQuestion q0 r0)) w0 = Normal tt /\
    fst (Runtime.handleSendMessage_await (Rejected networkError)
           (ofWorld (run [SubmitQuestion q0 r0] w0))) = Normal tt /\
    Runtime.content botTurn = apology /\
    Runtime.chunks botTurn = Runtime.Undefined /\
    Runtime.errors
      (snd (Runtime.handleSendMessage_await (Rejected networkError)
              (ofWorld (run [SubmitQuestion q0 r0] w0)))) =
      Runtime.errors (ofWorld (run [SubmitQuestion q0 r0] w0)) ++
      [(lit "Error sending message:", networkError)].
Proof.
  split; [reflexivity |].
  exact (failed_question_is_reported w0 q0 r0 (Rejected networkError) eq_refl).
Defined.

(** C4 as the spec words it fails on a malformed response: when the
    service answers 200 with the body [{}], or with text that is not
    JSON, the promise resolves, the success path runs, and the bot Turn
    that is appended has [undefined] as content, not the apology; nothing
    is logged. *)
Lemma malformed_response_counterexample :
  acceptsQuestion q0 r0 = true /\
  map Runtime.sender
      (Runtime.messages
         (snd (Runtime.handleSendMessage_await
                 (Resolved (mkResponse emptyObject))
                 (ofWorld (run [SubmitQuestion q0 r0] w0))))) = [user; bot] /\
  map Runtime.content
      (Runtime.messages
         (snd (Runtime.handleSendMessage_await
                 (Resolved (mkResponse emptyObject))
                 (ofWorld (run [SubmitQuestion q0 r0] w0))))) =
    [Runtime.Str q0; Runtime.Undefined] /\
  Runtime.Undefined <> apology /\
  Runtime.errors
    (snd (Runtime.handleSendMessage_await
            (Resolved (mkResponse emptyObject))
            (ofWorld (run [SubmitQuestion q0 r0] w0)))) = [] /\
  map Runtime.content
      (Runtime.messages
         (snd (Runtime.handleSendMessage_await
                 (Resolved (mkResponse notJson))
                 (ofWorld (run [SubmitQuestion q0 r0] w0))))) =
    [Runtime.Str q0; Runtime.Undefined].
Proof.
  split; [reflexivity |].
  split; [vm_compute; reflexivity |].
  split; [vm_compute; reflexivity |].
  split; [discriminate |].
  split; vm_compute; reflexivity.
Qed.
